(** * InteligenciaArtificial: event bus, memory module, reasoning engine and
    cognitive core

    A shallow embedding of the four core classes of the framework
    ([src/core/event_bus.py], [src/modules/memory_module.py],
    [src/modules/reasoning_engine.py], [src/core/cognitive_core.py]) followed by
    the properties established about them.

    Modelling conventions, valid for the whole development:
    - a Python object is the record of its attributes and a method is a
      function from the old record to the new one (explicit state passing);
      a method that can raise returns a [result];
    - a [dict] is a [gmap], an absent key is [None] of the lookup;
    - Python floats (rule weights, performance scores) are rationals [Q].
      The rounding of a float operation is [fl], of any [Rounding]: it
      is applied to the product that selects a rule; the update of [adapt]
      is computed exactly. The [OverflowError] of converting a huge [int]
      priority is outside the model;
    - an instant is a number of microseconds [Time]; [datetime.now()] is an
      argument [now] of the call that reads the clock (one reading per call),
      and an ISO-8601 string is identified with the instant it denotes
      ([fromisoformat (isoformat t) = t]);
    - [print] calls are not modelled. *)

From Stdlib Require Import ZArith QArith Lqa Lia.
From stdpp Require Import gmap strings list sorting.

(** ** Values *)

Set Warnings "-register-all".
Local Open Scope nat_scope.

Definition Time := Z.

(** Values of type [Any]: what travels as event payload, memory datum,
    perception, reasoning context and decision. *)
Inductive Any :=
  | PyNone
  | PyBool (b : bool)
  | PyInt (z : Z)
  | PyFloat (q : Q)
  | PyStr (s : string)
  | PyStamp (t : Time)            (* the string [t.isoformat()] *)
  | PyList (l : list Any)
  | PyDict (d : list (string * Any)).

Inductive exn := ValueError | AttributeError.

Inductive result (A : Type) :=
  | Ok (a : A)
  | Raise (e : exn).
Arguments Ok {A} a.
Arguments Raise {A} e.

(** The rounding of float arithmetic: the float nearest to the exact result,
    for results in the finite range (no overflow to infinity, and no
    [OverflowError] on the conversion of an integer to a float). All that is
    used of it is that it is monotone. *)
Class Rounding := {
  fl : Q -> Q;
  fl_monotone : forall a b : Q, (a <= b)%Q -> (fl a <= fl b)%Q
}.

(** Arithmetic whose results are exact: no rounding takes place. *)
#[global] Instance exact_arithmetic : Rounding :=
  {| fl := fun q => q; fl_monotone := fun a b Hab => Hab |}.

(** ** Python built-ins used by the classes *)
Module Py.

(** [l[-n:]] *)
Definition slice_last {A} (n : Z) (l : list A) : list A :=
  let len := Z.of_nat (length l) in
  let start := (- n)%Z in
  let start := if (start <? 0)%Z
               then (if (start + len <? 0)%Z then 0%Z else (start + len)%Z)
               else Z.min start len in
  drop (Z.to_nat start) l.

(** [deque(maxlen=maxlen).append(x)]: append on the right, then drop the
    leftmost element when the bound is exceeded. *)
Definition deque_append {A} (maxlen : nat) (d : list A) (x : A) : list A :=
  let d' := d ++ [x] in
  if maxlen <? length d' then tail d' else d'.

(** [l.remove(x)]: removes the first element equal to [x]; [ValueError]
    when there is none. *)
Fixpoint list_remove {A} `{EqDecision A} (x : A) (l : list A) : result (list A) :=
  match l with
  | [] => Raise ValueError
  | y :: l' =>
      if decide (y = x) then Ok l'
      else match list_remove x l' with
           | Ok r => Ok (y :: r)
           | Raise e => Raise e
           end
  end.

(** [max(first :: rest, key=key)]: the running maximum is replaced only by a
    strictly greater key, so the first maximal element is returned. *)
Fixpoint max_from {A} (key : A -> Q) (best : A) (rest : list A) : A :=
  match rest with
  | [] => best
  | x :: rest' =>
      if QMicromega.Qlt_bool (key best) (key x)
      then max_from key x rest'
      else max_from key best rest'
  end.

(** [min(a, b)] and [max(a, b)] on numbers: the first argument is kept
    unless the second is strictly smaller (resp. greater). *)
Definition min2 (a b : Q) : Q := if QMicromega.Qlt_bool b a then b else a.
Definition max2 (a b : Q) : Q := if QMicromega.Qlt_bool a b then b else a.

(** [l.sort(key=key, reverse=True)]: the stable sort in descending key
    order. Insertion from the right: an element goes in front of the first
    element whose key is not strictly greater, hence in front of its equals
    that followed it in the input. *)
Fixpoint insert_desc {A} (key : A -> Z) (x : A) (sorted : list A) : list A :=
  match sorted with
  | [] => [x]
  | y :: sorted' =>
      if (key x <? key y)%Z then y :: insert_desc key x sorted'
      else x :: sorted
  end.

Definition sort_desc {A} (key : A -> Z) (l : list A) : list A :=
  foldr (insert_desc key) [] l.

(** [d.get(k)] on a dictionary value kept as an association list. *)
Fixpoint dict_get (k : string) (d : list (string * Any)) : option Any :=
  match d with
  | [] => None
  | (k', v) :: d' => if decide (k' = k) then Some v else dict_get k d'
  end.

End Py.

(** ** [src/core/event_bus.py] *)
Module EventBus.

Record Event := {
  type : string;
  data : Any;
  timestamp : Time;
  source : string
}.

(** A callback is known by its identity; what it does when called is given
    by [handler_publishes] below. *)
Definition Callback := nat.

Record EventBus := {
  _listeners : gmap string (list Callback);
  _event_queue : list Event;
  _running : bool
}.

Definition __init__ : EventBus :=
  {| _listeners := ∅; _event_queue := []; _running := false |}.

(** [self._listeners[event_type].append(callback)] on a [defaultdict(list)] *)
Definition subscribe (event_type : string) (callback : Callback)
    (b : EventBus) : EventBus :=
  {| _listeners :=
       <[event_type := default [] (_listeners b !! event_type) ++ [callback]]>
         (_listeners b);
     _event_queue := _event_queue b;
     _running := _running b |}.

Definition unsubscribe (event_type : string) (callback : Callback)
    (b : EventBus) : result EventBus :=
  match _listeners b !! event_type with
  | Some registered =>
      match Py.list_remove callback registered with
      | Ok registered' =>
          Ok {| _listeners := <[event_type := registered']> (_listeners b);
                _event_queue := _event_queue b;
                _running := _running b |}
      | Raise e => Raise e
      end
  | None => Ok b
  end.

Definition publish (event : Event) (b : EventBus) : EventBus :=
  {| _listeners := _listeners b;
     _event_queue := _event_queue b ++ [event];
     _running := _running b |}.

Definition emit (event_type : string) (data : Any) (source : string)
    (now : Time) (b : EventBus) : EventBus :=
  publish {| type := event_type; data := data; timestamp := now;
             source := source |} b.

Definition stop (b : EventBus) : EventBus :=
  {| _listeners := _listeners b;
     _event_queue := _event_queue b;
     _running := false |}.

(** What can be seen of a bus from outside: the events put on its queue and
    the calls it makes to callbacks, in the order they happen. *)
Inductive Obs :=
  | Published (e : Event)
  | Called (callback : Callback) (e : Event).

Section Dispatch.

(** The events a callback publishes on this same bus while it handles an
    event (what [CognitiveCore._on_perception] does through [perceive]).
    A callback that raises has its exception caught by [_dispatch], so
    the loop goes on to the next callback either way. Callbacks do not
    subscribe, unsubscribe or start the bus while an event is dispatched. *)
Variable handler_publishes : Callback -> Event -> list Event.

Definition call (event : Event) (w : EventBus * list Obs)
    (callback : Callback) : EventBus * list Obs :=
  foldl (fun w e' => (publish e' w.1, w.2 ++ [Published e']))
        (w.1, w.2 ++ [Called callback event])
        (handler_publishes callback event).

Definition _dispatch (event : Event) (w : EventBus * list Obs)
    : EventBus * list Obs :=
  let listeners := default [] (_listeners w.1 !! type event) in
  foldl (call event) w listeners.

(** [start], first statement. *)
Definition start_enter (b : EventBus) : EventBus :=
  {| _listeners := _listeners b;
     _event_queue := _event_queue b;
     _running := true |}.

(** [start], the body of the loop: the wait on the queue, which ends with
    the next queued event being dispatched or with a timeout on an empty
    queue. The flag is not looked at here: it was tested at the head of the
    loop, before the wait. *)
Definition poll (w : EventBus * list Obs) : EventBus * list Obs :=
  match _event_queue w.1 with
  | event :: rest =>
      _dispatch event
        ({| _listeners := _listeners w.1;
            _event_queue := rest;
            _running := _running w.1 |}, w.2)
  | [] => w
  end.

(** [start], one turn of [while self._running] in which no other task runs
    between the test of the flag and the end of the wait. *)
Definition loop_iteration (w : EventBus * list Obs) : EventBus * list Obs :=
  if _running w.1 then poll w else w.

(** The steps that producers and the dispatch task take on one bus. A turn
    of the loop is [OpLoopIteration] when nothing happens between its test and
    the end of its wait, and [OpPoll] when its test passed earlier and other
    steps (a [stop], a publish) came in between. The steps are not tied to
    the control flow of one [start] call: every run of the code is one of
    their interleavings. *)
Inductive Op :=
  | OpPublish (e : Event)
  | OpEmit (event_type : string) (data : Any) (source : string) (now : Time)
  | OpStart
  | OpLoopIteration
  | OpPoll
  | OpStop.

Definition exec_op (w : EventBus * list Obs) (op : Op) : EventBus * list Obs :=
  match op with
  | OpPublish e => (publish e w.1, w.2 ++ [Published e])
  | OpEmit event_type data source now =>
      (emit event_type data source now w.1,
       w.2 ++ [Published {| type := event_type; data := data;
                            timestamp := now; source := source |}])
  | OpStart => (start_enter w.1, w.2)
  | OpLoopIteration => loop_iteration w
  | OpPoll => poll w
  | OpStop => (stop w.1, w.2)
  end.

Definition exec (ops : list Op) (w : EventBus * list Obs) : EventBus * list Obs :=
  foldl exec_op w ops.

End Dispatch.


Definition calls (tr : list Obs) : list (Callback * Event) :=
  omap (fun o => match o with Called h e => Some (h, e) | Published _ => None end) tr.

(** The events of type [event_type] that [callback] was called with. *)
Definition observed (callback : Callback) (event_type : string)
    (tr : list Obs) : list Event :=
  omap (fun o => match o with
                 | Called h e =>
                     if decide (h = callback ∧ type e = event_type)
                     then Some e else None
                 | Published _ => None
                 end) tr.

(** A bus on which the subscriptions [subs] were made, in that order. *)
Definition subscribe_all (subs : list (string * Callback)) (b : EventBus) : EventBus :=
  foldl (fun b s => subscribe s.1 s.2 b) b subs.










End EventBus.

(** ** [src/modules/memory_module.py] *)
Module MemoryModule.

(** The dictionary [{"type": .., "data": .., "timestamp": ..}] built by
    [store]. *)
Record MemoryEntry := {
  type : string;
  data : Any;
  timestamp : Time
}.

(** What [json.load] makes of a file: an exception, or a dictionary in which
    each of the keys may be missing. The entries of a readable file are taken
    to be well formed, as those that [_save] writes are. *)
Inductive File :=
  | Corrupt
  | Json (long_term : option (gmap string (list MemoryEntry)))
         (index : option (gmap string (list Z)))
         (last_saved : option Time).

(** The durable storage: the files by path, and the log of the paths that
    were opened for writing and dumped to, oldest first. *)
Record FileSystem := {
  files : gmap string File;
  write_log : list string
}.

Record MemoryModule := {
  memory_file : string;
  max_short_term : nat;
  _short_term : list MemoryEntry;
  _long_term : gmap string (list MemoryEntry);
  _index_by_type : gmap string (list Z)
}.

Definition _load (m : MemoryModule) (fs : FileSystem) : MemoryModule :=
  match files fs !! memory_file m with
  | Some (Json long_term index _) =>
      {| memory_file := memory_file m;
         max_short_term := max_short_term m;
         _short_term := _short_term m;
         _long_term := default ∅ long_term;
         _index_by_type := default ∅ index |}
  | Some Corrupt => m
  | None => m
  end.

Definition __init__ (memory_file : string) (max_short_term : nat)
    (fs : FileSystem) : MemoryModule :=
  _load {| memory_file := memory_file;
           max_short_term := max_short_term;
           _short_term := [];
           _long_term := ∅;
           _index_by_type := ∅ |} fs.

Definition _save (now : Time) (m : MemoryModule) (fs : FileSystem) : FileSystem :=
  {| files := <[memory_file m :=
                  Json (Some (_long_term m)) (Some (_index_by_type m)) (Some now)]>
                (files fs);
     write_log := write_log fs ++ [memory_file m] |}.

(** [run_in_executor(None, self._save)], awaited. *)
Definition persist (now : Time) (m : MemoryModule) (fs : FileSystem) : FileSystem :=
  _save now m fs.

Definition store (memory_type : string) (data : Any) (now : Time)
    (w : MemoryModule * FileSystem) : MemoryModule * FileSystem :=
  let m := w.1 in
  let memory_entry :=
    {| type := memory_type; data := data; timestamp := now |} in
  let short_term :=
    Py.deque_append (max_short_term m) (_short_term m) memory_entry in
  let long_term :=
    match _long_term m !! memory_type with
    | None => <[memory_type := []]> (_long_term m)
    | Some _ => _long_term m
    end in
  let long_term :=
    alter (fun entries => entries ++ [memory_entry]) memory_type long_term in
  let index_by_type :=
    match _index_by_type m !! memory_type with
    | None => <[memory_type := []]> (_index_by_type m)
    | Some _ => _index_by_type m
    end in
  let index_by_type :=
    alter (fun offsets =>
             offsets ++
               [(Z.of_nat (length (default [] (long_term !! memory_type))) - 1)%Z])
          memory_type index_by_type in
  let m' :=
    {| memory_file := memory_file m;
       max_short_term := max_short_term m;
       _short_term := short_term;
       _long_term := long_term;
       _index_by_type := index_by_type |} in
  if length short_term mod 10 =? 0
  then (m', persist now m' w.2)
  else (m', w.2).

Definition recall (query : string) (limit : Z) (m : MemoryModule)
    : option (list MemoryEntry) :=
  let short_term_results :=
    filter (fun entry => type entry = query) (_short_term m) in
  match short_term_results with
  | _ :: _ => Some (Py.slice_last limit short_term_results)
  | [] =>
      match _long_term m !! query with
      | Some entries => Some (Py.slice_last limit entries)
      | None =>
          if decide (query = "recent_context") then
            match Py.slice_last limit (_short_term m) with
            | [] => None
            | recent => Some recent
            end
          else None
      end
  end.

(** [timedelta(days=1)] in microseconds. *)
Definition day : Z := 86400000000.

Definition forget (memory_type : string) (older_than_days : Z) (now : Time)
    (w : MemoryModule * FileSystem) : Z * (MemoryModule * FileSystem) :=
  let m := w.1 in
  let cutoff_date := (now - older_than_days * day)%Z in
  let '(long_term, forgotten_count) :=
    match _long_term m !! memory_type with
    | Some entries =>
        let original_count := length entries in
        let kept :=
          filter (fun entry => (cutoff_date < timestamp entry)%Z) entries in
        (<[memory_type := kept]> (_long_term m),
         (Z.of_nat original_count - Z.of_nat (length kept))%Z)
    | None => (_long_term m, 0%Z)
    end in
  let m' :=
    {| memory_file := memory_file m;
       max_short_term := max_short_term m;
       _short_term := _short_term m;
       _long_term := long_term;
       _index_by_type := _index_by_type m |} in
  (forgotten_count, (m', persist now m' w.2)).

Definition clear (now : Time) (w : MemoryModule * FileSystem)
    : MemoryModule * FileSystem :=
  let m' :=
    {| memory_file := memory_file w.1;
       max_short_term := max_short_term w.1;
       _short_term := [];
       _long_term := ∅;
       _index_by_type := ∅ |} in
  (m', persist now m' w.2).

(** A run of [store] calls, in order; each call comes with the clock reading
    it makes. *)
Definition store_all (calls : list (string * Any * Time))
    (w : MemoryModule * FileSystem) : MemoryModule * FileSystem :=
  foldl (fun w c => store c.1.1 c.1.2 c.2 w) w calls.

(** The entry that a [store] call creates. *)
Definition entry_of (c : string * Any * Time) : MemoryEntry :=
  {| type := c.1.1; data := c.1.2; timestamp := c.2 |}.

(** A file system on which nothing was written yet. *)
Definition empty_fs : FileSystem := {| files := ∅; write_log := [] |}.

(** The scenario of the eleven stores: [store("x", i)] for [i] in 1..11, the
    clock reading [clock i] at the [i]-th call. *)
Definition eleven_stores (clock : Z -> Time) : list (string * Any * Time) :=
  (fun i => ("x", PyInt i, clock i)) <$> [1; 2; 3; 4; 5; 6; 7; 8; 9; 10; 11]%Z.

(** [store("x", i)] for [i] in 1..n, the [i]-th call at instant [i]. *)
Definition numbered_stores (n : nat) : list (string * Any * Time) :=
  (fun i => ("x", PyInt (Z.of_nat i), Z.of_nat i)) <$> seq 1 n.

(** The files written between two states of the file system. *)
Definition written (fs fs' : FileSystem) : list string :=
  drop (length (write_log fs)) (write_log fs').

(** The index of a type lists the positions 0, 1, .. of its long-term list. *)
Definition index_consistent (m : MemoryModule) : Prop :=
  forall t,
    _index_by_type m !! t
    = (fun entries => Z.of_nat <$> seq 0 (length entries)) <$> _long_term m !! t.

End MemoryModule.

(** ** [src/modules/reasoning_engine.py] *)
Module ReasoningEngine.

(** The dictionary [reasoning_context] handed to conditions and actions. *)
Record Context := {
  perceptions : list Any;
  context : Any;
  timestamp : Time;
  perception_count : nat
}.

(** A condition or an action is a function of the context; [None] is a call
    that raises. *)
Record Rule := {
  name : string;
  condition : Context -> option bool;
  action : Context -> option Any;
  priority : Z;
  execution_count : nat;
  last_executed : option Time
}.

Definition Rule__init__ (name : string) (condition : Context -> option bool)
    (action : Context -> option Any) (priority : Z) : Rule :=
  {| name := name; condition := condition; action := action;
     priority := priority; execution_count := 0; last_executed := None |}.

Definition evaluate (r : Rule) (ctx : Context) : bool :=
  match condition r ctx with
  | Some b => b
  | None => false
  end.

Definition execute (r : Rule) (ctx : Context) (now : Time) : Any * Rule :=
  match action r ctx with
  | Some result =>
      (result,
       {| name := name r; condition := condition r; action := action r;
          priority := priority r;
          execution_count := S (execution_count r);
          last_executed := Some now |})
  | None => (PyNone, r)
  end.

Record ReasoningRecord := {
  rule_used : string;
  applicable_rules : list string;
  decision : Any;
  record_timestamp : Time
}.

Record ReasoningEngine := {
  _rules : list Rule;
  _reasoning_history : list ReasoningRecord;
  _adaptive_weights : gmap string Q
}.

Definition __init__ : ReasoningEngine :=
  {| _rules := []; _reasoning_history := []; _adaptive_weights := ∅ |}.

Definition add_rule (name : string) (condition : Context -> option bool)
    (action : Context -> option Any) (priority : Z)
    (e : ReasoningEngine) : ReasoningEngine :=
  let rule := Rule__init__ name condition action priority in
  {| _rules := Py.sort_desc ReasoningEngine.priority (_rules e ++ [rule]);
     _reasoning_history := _reasoning_history e;
     _adaptive_weights := <[name := 1%Q]> (_adaptive_weights e) |}.

(** The rules in front of the first one called [name], and those behind it. *)
Fixpoint split_at_name (name : string) (rules : list Rule)
    : option (list Rule * list Rule) :=
  match rules with
  | [] => None
  | rule :: rules' =>
      if decide (ReasoningEngine.name rule = name) then Some ([], rules')
      else match split_at_name name rules' with
           | Some (before, after) => Some (rule :: before, after)
           | None => None
           end
  end.

Definition remove_rule (name : string) (e : ReasoningEngine)
    : bool * ReasoningEngine :=
  match split_at_name name (_rules e) with
  | Some (before, after) =>
      (true,
       {| _rules := before ++ after;
          _reasoning_history := _reasoning_history e;
          _adaptive_weights := delete name (_adaptive_weights e) |})
  | None => (false, e)
  end.

Definition _default_reasoning (ctx : Context) : Any :=
  if 10 <? length (perceptions ctx) then
    PyDict [("action", PyStr "process"); ("confidence", PyFloat 0.6);
            ("reason", PyStr "many_perceptions")]
  else if 0 <? length (perceptions ctx) then
    PyDict [("action", PyStr "observe"); ("confidence", PyFloat 0.5);
            ("reason", PyStr "few_perceptions")]
  else
    PyDict [("action", PyStr "wait"); ("confidence", PyFloat 0.4);
            ("reason", PyStr "no_perceptions")].

(** [r.priority * self._adaptive_weights.get(r.name, 1.0)]: the [int]
    priority is converted to a float and the product is a float product. *)
Definition selection_key `{Rounding} (e : ReasoningEngine) (r : Rule) : Q :=
  fl (fl (inject_Z (priority r)) * default 1 (_adaptive_weights e !! name r))%Q.

(** The rules whose condition holds, each with its position in [_rules]
    (the position stands for the identity of the rule object). *)
Definition applicable (e : ReasoningEngine) (ctx : Context) : list (nat * Rule) :=
  filter (fun ir => evaluate ir.2 ctx = true) (imap pair (_rules e)).

Definition best_rule `{Rounding} (e : ReasoningEngine) (ctx : Context)
    : option (nat * Rule) :=
  match applicable e ctx with
  | [] => None
  | first :: rest => Some (Py.max_from (fun ir => selection_key e ir.2) first rest)
  end.

Definition reasoning_context (perceptions : list Any) (context : Any)
    (now : Time) : Context :=
  {| perceptions := perceptions; context := context; timestamp := now;
     perception_count := length perceptions |}.

Definition reason `{Rounding} (perceptions : list Any) (context : Any)
    (now : Time) (e : ReasoningEngine) : Any * ReasoningEngine :=
  let ctx := reasoning_context perceptions context now in
  match best_rule e ctx with
  | None => (_default_reasoning ctx, e)
  | Some (i, rule) =>
      let '(result, rule') := execute rule ctx now in
      let reasoning_record :=
        {| rule_used := name rule;
           applicable_rules := (fun ir => name ir.2) <$> applicable e ctx;
           decision := result;
           record_timestamp := now |} in
      let history := _reasoning_history e ++ [reasoning_record] in
      let history :=
        if 1000 <? length history then Py.slice_last 500 history else history in
      (result,
       {| _rules := <[i := rule']> (_rules e);
          _reasoning_history := history;
          _adaptive_weights := _adaptive_weights e |})
  end.

Definition adapt (rule_name : string) (performance_score : Q)
    (e : ReasoningEngine) : ReasoningEngine :=
  match _adaptive_weights e !! rule_name with
  | Some current_weight =>
      let adjustment := ((performance_score - 0.5) * 0.1)%Q in
      let new_weight :=
        Py.max2 0.1 (Py.min2 2.0 (current_weight + adjustment)) in
      {| _rules := _rules e;
         _reasoning_history := _reasoning_history e;
         _adaptive_weights := <[rule_name := new_weight]> (_adaptive_weights e) |}
  | None => e
  end.

Definition get_history (limit : Z) (e : ReasoningEngine) : list ReasoningRecord :=
  Py.slice_last limit (_reasoning_history e).

(** [n] calls of [adapt] with the same arguments. *)
Definition adapt_times (n : nat) (rule_name : string) (performance_score : Q)
    (e : ReasoningEngine) : ReasoningEngine :=
  Nat.iter n (adapt rule_name performance_score) e.

(** Every recorded weight lies in [0.1, 2.0]. *)
Definition weights_in_range (e : ReasoningEngine) : Prop :=
  forall rule_name w,
    _adaptive_weights e !! rule_name = Some w -> (0.1 <= w)%Q ∧ (w <= 2.0)%Q.

(** The calls made on one engine. *)
Inductive Op :=
  | OpAddRule (name : string) (condition : Context -> option bool)
      (action : Context -> option Any) (priority : Z)
  | OpRemoveRule (name : string)
  | OpReason (perceptions : list Any) (context : Any) (now : Time)
  | OpAdapt (rule_name : string) (performance_score : Q).

Definition exec_op `{Rounding} (e : ReasoningEngine) (op : Op) : ReasoningEngine :=
  match op with
  | OpAddRule name condition action priority =>
      add_rule name condition action priority e
  | OpRemoveRule name => (remove_rule name e).2
  | OpReason perceptions context now => (reason perceptions context now e).2
  | OpAdapt rule_name performance_score => adapt rule_name performance_score e
  end.

Definition exec `{Rounding} (ops : list Op) (e : ReasoningEngine)
    : ReasoningEngine :=
  foldl exec_op e ops.

(** The rules are in descending order of priority. *)
Definition sorted_by_priority (e : ReasoningEngine) : Prop :=
  StronglySorted (fun r1 r2 => (priority r2 <= priority r1)%Z) (_rules e).

End ReasoningEngine.

(** ** [src/core/cognitive_core.py] *)
Module CognitiveCore.

(** The core together with the objects it holds references to: the bus, and
    the optional memory module (with the file system it writes to) and
    reasoning engine. *)
Record CognitiveCore := {
  event_bus : EventBus.EventBus;
  memory : option (MemoryModule.MemoryModule * MemoryModule.FileSystem);
  reasoning : option ReasoningEngine.ReasoningEngine;
  _state : string;
  _perceptions : list Any;
  _running : bool
}.

(** The bound method [self._on_perception] as a callback of the bus. *)
Definition _on_perception_callback : EventBus.Callback := 0.

Definition __init__ (event_bus : EventBus.EventBus)
    (memory_module : option (MemoryModule.MemoryModule * MemoryModule.FileSystem))
    (reasoning_engine : option ReasoningEngine.ReasoningEngine) : CognitiveCore :=
  {| event_bus :=
       EventBus.subscribe "sensor_data" _on_perception_callback
         (EventBus.subscribe "perception" _on_perception_callback event_bus);
     memory := memory_module;
     reasoning := reasoning_engine;
     _state := "idle";
     _perceptions := [];
     _running := false |}.

Definition perceive (data : Any) (source : string) (now : Time)
    (c : CognitiveCore) : CognitiveCore :=
  let perception :=
    PyDict [("data", data); ("source", PyStr source); ("timestamp", PyStamp now)] in
  {| event_bus :=
       EventBus.emit "perception_received" perception "cognitive_core" now
         (event_bus c);
     memory := MemoryModule.store "perception" perception now <$> memory c;
     reasoning := reasoning c;
     _state := _state c;
     _perceptions := _perceptions c ++ [perception];
     _running := _running c |}.

Definition _on_perception (event : EventBus.Event) (now : Time)
    (c : CognitiveCore) : CognitiveCore :=
  perceive (EventBus.data event) (EventBus.source event) now c.

(** A memory entry as the dictionary it is. *)
Definition entry_value (entry : MemoryModule.MemoryEntry) : Any :=
  PyDict [("type", PyStr (MemoryModule.type entry));
          ("data", MemoryModule.data entry);
          ("timestamp", PyStamp (MemoryModule.timestamp entry))].

(** [await self.memory.recall("recent_context") or {}] *)
Definition recalled_context (c : CognitiveCore) : Any :=
  match memory c with
  | Some w =>
      match MemoryModule.recall "recent_context" 10 w.1 with
      | Some (entry :: entries) => PyList (entry_value <$> entry :: entries)
      | Some [] => PyDict []
      | None => PyDict []
      end
  | None => PyDict []
  end.

Definition think `{Rounding} (now : Time) (c : CognitiveCore)
    : option Any * CognitiveCore :=
  match _perceptions c with
  | [] => (None, c)
  | _ :: _ =>
      let context := recalled_context c in
      let '(decision, reasoning') :=
        match reasoning c with
        | Some engine =>
            let '(decision, engine') :=
              ReasoningEngine.reason (_perceptions c) context now engine in
            (decision, Some engine')
        | None =>
            (PyDict [("action", PyStr "observe"); ("confidence", PyFloat 0.5)],
             None)
        end in
      let thoughts :=
        PyDict [("perceptions_count", PyInt (Z.of_nat (length (_perceptions c))));
                ("recent_perceptions", PyList (Py.slice_last 5 (_perceptions c)));
                ("context", context);
                ("timestamp", PyStamp now);
                ("decision", decision)] in
      (Some thoughts,
       {| event_bus :=
            EventBus.emit "thought_completed" thoughts "cognitive_core" now
              (event_bus c);
          memory := memory c;
          reasoning := reasoning';
          _state := _state c;
          _perceptions := _perceptions c;
          _running := _running c |})
  end.

Definition act (action : Any) (now : Time) (c : CognitiveCore) : CognitiveCore :=
  let action_event := PyDict [("action", action); ("timestamp", PyStamp now)] in
  {| event_bus :=
       EventBus.emit "action_requested" action "cognitive_core" now (event_bus c);
     memory := MemoryModule.store "action" action_event now <$> memory c;
     reasoning := reasoning c;
     _state := _state c;
     _perceptions := _perceptions c;
     _running := _running c |}.

(** [x != "observe"] *)
Definition is_not_observe (x : option Any) : bool :=
  match x with
  | Some (PyStr s) => negb (String.eqb s "observe")
  | _ => true
  end.

Definition compact (c : CognitiveCore) : CognitiveCore :=
  if 100 <? length (_perceptions c) then
    {| event_bus := event_bus c;
       memory := memory c;
       reasoning := reasoning c;
       _state := _state c;
       _perceptions := Py.slice_last 50 (_perceptions c);
       _running := _running c |}
  else c.

(** The state after the call, and the exception that ended it if one did:
    [decision.get] raises [AttributeError] on a decision that is no
    dictionary. *)
Definition cognitive_cycle `{Rounding} (now : Time) (c : CognitiveCore)
    : CognitiveCore * option exn :=
  match think now c with
  | (Some (PyDict thoughts), c1) =>
      match Py.dict_get "decision" thoughts with
      | Some (PyDict decision) =>
          if is_not_observe (Py.dict_get "action" decision)
          then (compact (act (PyDict decision) now c1), None)
          else (compact c1, None)
      | Some _ => (c1, Some AttributeError)
      | None => (compact c1, None)
      end
  | (_, c1) => (compact c1, None)
  end.

(** [run], up to the [try]: the flags are set and the start event emitted. *)
Definition run_enter (now : Time) (c : CognitiveCore) : CognitiveCore :=
  {| event_bus :=
       EventBus.emit "cognitive_core_started" (PyDict []) "cognitive_core" now
         (event_bus c);
     memory := memory c;
     reasoning := reasoning c;
     _state := "running";
     _perceptions := _perceptions c;
     _running := true |}.

(** [run], the [finally] block. *)
Definition run_finally (now : Time) (c : CognitiveCore) : CognitiveCore :=
  {| event_bus :=
       EventBus.emit "cognitive_core_stopped" (PyDict []) "cognitive_core" now
         (event_bus c);
     memory := memory c;
     reasoning := reasoning c;
     _state := "stopped";
     _perceptions := _perceptions c;
     _running := _running c |}.

(** [run], one test of [while self._running]: a cycle followed by the
    sleep when the flag is set, the [finally] block when it is not or when
    the cycle raises. *)
Definition run_step `{Rounding} (now : Time) (c : CognitiveCore) : CognitiveCore :=
  if _running c then
    match cognitive_cycle now c with
    | (c', None) => c'
    | (c', Some _) => run_finally now c'
    end
  else run_finally now c.

Definition stop (c : CognitiveCore) : CognitiveCore :=
  {| event_bus := event_bus c;
     memory := memory c;
     reasoning := reasoning c;
     _state := _state c;
     _perceptions := _perceptions c;
     _running := false |}.

Definition state (c : CognitiveCore) : string := _state c.

(** The operations on one instance, as its tasks interleave them. A call of
    [run] is [OpRunEnter] followed by [OpRunStep]s, the last of which runs the
    [finally] block. *)
Inductive Op :=
  | OpPerceive (data : Any) (source : string) (now : Time)
  | OpOnPerception (event : EventBus.Event) (now : Time)
  | OpThink (now : Time)
  | OpAct (action : Any) (now : Time)
  | OpCognitiveCycle (now : Time)
  | OpRunEnter (now : Time)
  | OpRunStep (now : Time)
  | OpStop
  | OpState.

Definition exec_op `{Rounding} (c : CognitiveCore) (op : Op) : CognitiveCore :=
  match op with
  | OpPerceive data source now => perceive data source now c
  | OpOnPerception event now => _on_perception event now c
  | OpThink now => (think now c).2
  | OpAct action now => act action now c
  | OpCognitiveCycle now => (cognitive_cycle now c).1
  | OpRunEnter now => run_enter now c
  | OpRunStep now => run_step now c
  | OpStop => stop c
  | OpState => c
  end.

Definition exec `{Rounding} (ops : list Op) (c : CognitiveCore) : CognitiveCore :=
  foldl exec_op c ops.

Definition is_run_enter (op : Op) : bool :=
  match op with
  | OpRunEnter _ => true
  | _ => false
  end.

End CognitiveCore.

(** * Properties *)

(** ** Python built-ins *)
Section PyFacts.
Context {A : Type}.
Implicit Types (l d : list A) (x : A).

Lemma slice_last_pos (n : Z) l :
  (1 <= n)%Z -> Py.slice_last n l = drop (length l - Z.to_nat n) l.
Proof.
  intros Hn. unfold Py.slice_last.
  destruct (Z.ltb_spec (- n) 0); [|lia].
  destruct (Z.ltb_spec (- n + Z.of_nat (length l)) 0); f_equal; lia.
Qed.

Lemma last_drop (k : nat) l :
  k < length l -> last (drop k l) = last l.
Proof.
  intros Hk. rewrite <- (take_drop k l) at 2.
  destruct (drop k l) as [|y t] eqn:E.
  - apply (f_equal length) in E. rewrite length_drop in E. simpl in E. lia.
  - symmetry. rewrite last_app_cons. reflexivity.
Qed.

Lemma slice_last_last (n : Z) l x :
  (1 <= n)%Z -> last l = Some x -> last (Py.slice_last n l) = Some x.
Proof.
  intros Hn Hl. rewrite slice_last_pos by done.
  rewrite last_drop; [done|].
  destruct l; [done|]. simpl. lia.
Qed.

Lemma deque_append_drop (maxlen : nat) l x :
  Py.deque_append maxlen (drop (length l - maxlen) l) x
  = drop (length (l ++ [x]) - maxlen) (l ++ [x]).
Proof.
  unfold Py.deque_append.
  rewrite !length_app, length_drop. simpl.
  destruct (Nat.ltb_spec maxlen (length l - (length l - maxlen) + 1)) as [Hlt|Hge].
  - assert (maxlen <= length l) as Hle by lia.
    replace (length l + 1 - maxlen) with (S (length l - maxlen)) by lia.
    rewrite <- drop_app_le by lia.
    change (tail ?k) with (drop 1 k). rewrite drop_drop. f_equal. lia.
  - assert (length l < maxlen) as Hle by lia.
    replace (length l - maxlen) with 0 by lia.
    replace (length l + 1 - maxlen) with 0 by lia.
    done.
Qed.

Lemma deque_append_last (maxlen : nat) d x :
  Py.deque_append maxlen d x = [] ∨ last (Py.deque_append maxlen d x) = Some x.
Proof.
  unfold Py.deque_append.
  destruct (maxlen <? length (d ++ [x])).
  - destruct d as [|y d]; [by left|]. right. simpl tail. apply last_snoc.
  - right. apply last_snoc.
Qed.

Lemma deque_append_nil (maxlen : nat) d x :
  Py.deque_append maxlen d x = [] -> d = [].
Proof.
  unfold Py.deque_append.
  destruct (maxlen <? length (d ++ [x])).
  - destruct d as [|y d]; [done|]. simpl. by destruct d.
  - by destruct d.
Qed.

End PyFacts.

(** ** Memory module *)
Section MemoryFacts.
Import MemoryModule.
Implicit Types (m : MemoryModule) (fs : FileSystem) (w : MemoryModule * FileSystem).

Lemma store_short_term memory_type data now w :
  _short_term (store memory_type data now w).1
  = Py.deque_append (max_short_term w.1) (_short_term w.1)
      {| type := memory_type; data := data; timestamp := now |}.
Proof. unfold store. by case (_ =? _). Qed.

Lemma store_max_short_term memory_type data now w :
  max_short_term (store memory_type data now w).1 = max_short_term w.1.
Proof. unfold store. by case (_ =? _). Qed.

Lemma store_all_snoc calls c w :
  store_all (calls ++ [c]) w = store c.1.1 c.1.2 c.2 (store_all calls w).
Proof. unfold store_all. by rewrite foldl_snoc. Qed.

Lemma store_all_max_short_term calls w :
  max_short_term (store_all calls w).1 = max_short_term w.1.
Proof.
  induction calls as [|c calls IH] using rev_ind; [done|].
  by rewrite store_all_snoc, store_max_short_term.
Qed.

Lemma init_short_term memory_file max fs :
  _short_term (__init__ memory_file max fs) = []
  ∧ max_short_term (__init__ memory_file max fs) = max.
Proof.
  unfold __init__, _load. simpl.
  destruct (files fs !! memory_file) as [[|? ? ?]|]; done.
Qed.

(** From an empty buffer, the buffer is the tail of the stored entries that
    fits the capacity. *)
Lemma store_all_short_term calls w :
  _short_term w.1 = [] ->
  _short_term (store_all calls w).1
  = drop (length calls - max_short_term w.1) (entry_of <$> calls).
Proof.
  intros Hempty.
  induction calls as [|c calls IH] using rev_ind; [done|].
  rewrite store_all_snoc, store_short_term, store_all_max_short_term, IH.
  rewrite fmap_app. simpl.
  rewrite length_app. simpl.
  pose proof (deque_append_drop (max_short_term w.1) (entry_of <$> calls) (entry_of c)) as H.
  rewrite length_app, !length_fmap in H. simpl in H.
  destruct c as [[t d] now]. exact H.
Qed.

(** C3. For a module constructed with capacity [max_short_term] (whatever the
    file it loads) and any sequence of [store] calls, the short-term buffer is
    never longer than the capacity and holds exactly the most recent
    [min n max_short_term] entries in storage order; with capacity 10, eleven
    stores of 1..11 leave a buffer of length 10 with the entries for 2..11. *)
Theorem short_term_holds_most_recent memory_file max_short_term fs calls :
  let w := store_all calls (__init__ memory_file max_short_term fs, fs) in
  length (_short_term w.1) <= max_short_term
  ∧ length (_short_term w.1) = Nat.min (length calls) max_short_term
  ∧ _short_term w.1 = drop (length calls - max_short_term) (entry_of <$> calls)
  ∧ (forall clock,
       let w11 := store_all (eleven_stores clock) (__init__ memory_file 10 fs, fs) in
       length (_short_term w11.1) = 10
       ∧ data <$> _short_term w11.1
         = PyInt <$> [2; 3; 4; 5; 6; 7; 8; 9; 10; 11]%Z).
Proof.
  intros w.
  destruct (init_short_term memory_file max_short_term fs) as [He Hm].
  assert (_short_term w.1
          = drop (length calls - max_short_term) (entry_of <$> calls)) as Hs.
  { unfold w. rewrite store_all_short_term by done. simpl. by rewrite Hm. }
  assert (length (_short_term w.1) = Nat.min (length calls) max_short_term) as Hl.
  { rewrite Hs, length_drop, length_fmap. lia. }
  split; [lia|]. split; [done|]. split; [done|].
  intros clock w11.
  destruct (init_short_term memory_file 10 fs) as [He' Hm'].
  assert (_short_term w11.1 = drop 1 (entry_of <$> eleven_stores clock)) as ->.
  { unfold w11. rewrite store_all_short_term by done. simpl. by rewrite Hm'. }
  done.
Qed.

Lemma store_write_log memory_type data now w :
  write_log (store memory_type data now w).2
  = write_log w.2 ++
      (if length (_short_term (store memory_type data now w).1) mod 10 =? 0
       then [memory_file w.1] else []).
Proof.
  rewrite store_short_term. unfold store.
  case (_ =? _); cbn [snd fst persist _save write_log memory_file].
  - done.
  - by rewrite app_nil_r.
Qed.

(** What the code does: the [n]-th [store] since construction writes the
    file exactly when the buffer length it leaves, [min n max_short_term],
    is a multiple of 10. *)
Lemma nth_store_written path max fs calls c :
  let w := store_all calls (__init__ path max fs, fs) in
  written w.2 (store c.1.1 c.1.2 c.2 w).2
  = if Nat.min (S (length calls)) max mod 10 =? 0 then [path] else [].
Proof.
  intros w. subst w. unfold written. rewrite store_write_log, drop_app_length.
  rewrite <- store_all_snoc.
  destruct (init_short_term path max fs) as [He Hm].
  rewrite store_all_short_term by done. cbn [fst]. rewrite Hm.
  rewrite length_drop, length_fmap, length_app. cbn [length].
  replace (length calls + 1 - (length calls + 1 - max))
    with (Nat.min (S (length calls)) max) by lia.
  assert (memory_file (store_all calls (__init__ path max fs, fs)).1 = path)
    as ->; [|done].
  clear. induction calls as [|c calls IH] using rev_ind.
  - simpl. unfold __init__, _load. simpl.
    destruct (files fs !! path) as [[|? ? ?]|]; done.
  - rewrite store_all_snoc. unfold store. by case (_ =? _).
Qed.

(** C5 (what the code does at the failing inputs). On a module constructed
    with the default capacity 100, the first 100 stores write the file 10
    times, and the 101st store writes it again although 101 is no multiple
    of 10. On a module of capacity 5, the 10th store writes nothing. *)
Theorem store_101_writes_file :
  let w100 :=
    store_all (numbered_stores 100)
      (__init__ "memory_data.json" 100 empty_fs, empty_fs) in
  let w101 := store "x" (PyInt 101) 101%Z w100 in
  let v9 :=
    store_all (numbered_stores 9)
      (__init__ "memory_data.json" 5 empty_fs, empty_fs) in
  let v10 := store "x" (PyInt 10) 10%Z v9 in
  length (write_log w100.2) = 10
  ∧ written w100.2 w101.2 = ["memory_data.json"]
  ∧ 101 mod 10 <> 0
  ∧ written v9.2 v10.2 = []
  ∧ 10 mod 10 = 0.
Proof.
  intros w100 w101 v9 v10. split; [by vm_compute|]. split; [|split; [done|]].
  - exact (nth_store_written "memory_data.json" 100 empty_fs (numbered_stores 100)
             ("x", PyInt 101, 101%Z)).
  - split; [|done].
    exact (nth_store_written "memory_data.json" 5 empty_fs (numbered_stores 9)
             ("x", PyInt 10, 10%Z)).
Qed.

Lemma store_long_term memory_type data now w :
  _long_term (store memory_type data now w).1 !! memory_type
  = Some (default [] (_long_term w.1 !! memory_type)
            ++ [{| type := memory_type; data := data; timestamp := now |}]).
Proof.
  unfold store. case (_ =? _); cbn [fst _long_term];
    destruct (_long_term w.1 !! memory_type) as [entries|] eqn:E;
    rewrite lookup_alter_eq, ?lookup_insert_eq, ?E; done.
Qed.

(** C8. On every module state, [store(t, d)] followed at once by
    [recall(t, limit)] with [limit >= 1] returns a non-empty list whose last
    element is the entry just created, of type [t] and datum [d]. *)
Theorem store_then_recall m fs memory_type data now (limit : Z) :
  (1 <= limit)%Z ->
  exists results entry,
    recall memory_type limit (store memory_type data now (m, fs)).1 = Some results
    ∧ results <> []
    ∧ last results = Some entry
    ∧ entry = {| type := memory_type; data := data; timestamp := now |}
    ∧ type entry = memory_type
    ∧ MemoryModule.data entry = data.
Proof.
  intros Hlimit.
  set (entry := {| type := memory_type; data := data; timestamp := now |}).
  assert (forall l, last l = Some entry ->
            last (Py.slice_last limit l) = Some entry
            ∧ Py.slice_last limit l <> []) as Hslice.
  { intros l Hl. pose proof (slice_last_last limit l entry Hlimit Hl) as H.
    split; [done|]. intros Hnil. by rewrite Hnil in H. }
  assert (exists results,
    recall memory_type limit (store memory_type data now (m, fs)).1 = Some results
    ∧ results <> [] ∧ last results = Some entry) as (results & ? & ? & ?).
  { unfold recall.
    pose proof (store_long_term memory_type data now (m, fs)) as Hlong.
    rewrite store_short_term.
    destruct (deque_append_last (max_short_term (m, fs).1) (_short_term (m, fs).1) entry)
      as [Hnil|Hlast]; fold entry.
    - rewrite Hnil. simpl. rewrite Hlong. fold entry.
      eexists. split; [done|].
      destruct (Hslice (default [] (_long_term (m, fs).1 !! memory_type) ++ [entry]))
        as [? ?]; [apply last_snoc|done].
    - assert (last (filter (fun e => type e = memory_type)
                      (Py.deque_append (max_short_term (m, fs).1)
                         (_short_term (m, fs).1) entry)) = Some entry) as Hf.
      { apply last_Some in Hlast as [l' ->].
        rewrite filter_app, filter_cons_True by done.
        rewrite filter_nil. apply last_snoc. }
      destruct (filter _ _) as [|e0 rest] eqn:E; [done|].
      eexists. split; [done|]. destruct (Hslice (e0 :: rest) Hf). done. }
  exists results, entry. done.
Qed.

(** C8 at an instance: a module of capacity 0, whose buffer stays empty, so
    that the entry is recalled from the long-term list. *)
Lemma store_then_recall_witness :
  exists results entry,
    recall "perception" 1
      (store "perception" (PyInt 7) 3%Z
         (__init__ "memory_data.json" 0 empty_fs, empty_fs)).1 = Some results
    ∧ results <> []
    ∧ last results = Some entry
    ∧ entry = {| type := "perception"; data := PyInt 7; timestamp := 3%Z |}
    ∧ type entry = "perception"
    ∧ MemoryModule.data entry = PyInt 7.
Proof. apply store_then_recall. lia. Defined.

(** C9. [forget(type, older_than_days)] changes only the long-term list of the
    given type, which keeps exactly its entries with a timestamp strictly
    later than [now - older_than_days], and returns the number of entries
    removed; the short-term buffer, the long-term lists of the other types
    and the index are unchanged. *)
Theorem forget_frame memory_type (older_than_days : Z) now m fs :
  let cutoff_date := (now - older_than_days * day)%Z in
  let r := forget memory_type older_than_days now (m, fs) in
  let m' := r.2.1 in
  _short_term m' = _short_term m
  ∧ _index_by_type m' = _index_by_type m
  ∧ max_short_term m' = max_short_term m
  ∧ memory_file m' = memory_file m
  ∧ (forall other, other <> memory_type ->
       _long_term m' !! other = _long_term m !! other)
  ∧ _long_term m' !! memory_type
    = filter (fun entry => (cutoff_date < timestamp entry)%Z)
        <$> _long_term m !! memory_type
  ∧ r.1 = (Z.of_nat (length (default [] (_long_term m !! memory_type)))
           - Z.of_nat (length (default [] (_long_term m' !! memory_type))))%Z.
Proof.
  intros cutoff_date r m'. subst r m'. unfold forget. cbn [fst].
  destruct (_long_term m !! memory_type) as [entries|] eqn:E; cbn [fst snd].
  - cbn [_short_term _index_by_type max_short_term memory_file _long_term].
    repeat split; try done.
    + intros other Hne. by rewrite lookup_insert_ne.
    + by rewrite lookup_insert_eq.
    + by rewrite lookup_insert_eq.
  - cbn [_short_term _index_by_type max_short_term memory_file _long_term].
    rewrite E. done.
Qed.

(** C9 at an instance: three entries of type "x" stored at instants 1, 2, 3
    and one of type "y"; forgetting "x" with a cutoff at instant 2. *)
Lemma forget_frame_witness :
  let w :=
    store "y" PyNone 1%Z
      (store_all (numbered_stores 3) (__init__ "memory_data.json" 2 empty_fs, empty_fs)) in
  let r := forget "x" 0 2%Z (w.1, w.2) in
  "y" <> "x"
  ∧ _short_term r.2.1 = _short_term w.1
  ∧ _index_by_type r.2.1 = _index_by_type w.1
  ∧ _long_term r.2.1 !! "y" = _long_term w.1 !! "y"
  ∧ _long_term r.2.1 !! "x"
    = filter (fun entry => (2 - 0 * day < timestamp entry)%Z)
        <$> _long_term w.1 !! "x"
  ∧ r.1 = 2%Z.
Proof.
  intros w r.
  destruct (forget_frame "x" 0 2%Z w.1 w.2) as (Hs & Hi & _ & _ & Ho & Hl & Hc).
  assert ("y" <> "x") as Hne by done.
  split; [done|]. split; [exact Hs|]. split; [exact Hi|].
  split; [exact (Ho "y" Hne)|]. split; [exact Hl|].
  etransitivity; [exact Hc|]. by vm_compute.
Defined.

End MemoryFacts.

(** ** Event bus *)
Section EventBusFacts.
Import EventBus.
Implicit Types (b : EventBus) (tr : list Obs) (w : EventBus * list Obs)
  (e : Event) (h : Callback).



Lemma observed_app h t tr1 tr2 :
  observed h t (tr1 ++ tr2) = observed h t tr1 ++ observed h t tr2.
Proof. apply omap_app. Qed.


Section Dispatch.
Variable handler_publishes : Callback -> Event -> list Event.







End Dispatch.







Lemma list_remove_elem_of h (l : list Callback) :
  h ∈ l ->
  exists l1 l2, l = l1 ++ h :: l2 ∧ (h ∉ l1) ∧ Py.list_remove h l = Ok (l1 ++ l2).
Proof.
  induction l as [|y l IH]; intros Hin; [by apply elem_of_nil in Hin|].
  simpl. destruct (decide (y = h)) as [->|Hne].
  - exists [], l. split; [done|]. split; [apply not_elem_of_nil|done].
  - apply elem_of_cons in Hin as [->|Hin]; [done|].
    destruct (IH Hin) as (l1 & l2 & -> & Hl1 & ->).
    exists (y :: l1), l2. split; [done|]. split; [|done].
    rewrite not_elem_of_cons. split; [congruence|done].
Qed.

Lemma list_remove_not_elem_of h (l : list Callback) :
  h ∉ l -> Py.list_remove h l = Raise ValueError.
Proof.
  induction l as [|y l IH]; intros Hin; [done|].
  apply not_elem_of_cons in Hin as [Hne Hin].
  simpl. rewrite decide_False by congruence. by rewrite IH.
Qed.

(** [unsubscribe] on a type that was never seen changes nothing. *)
Lemma unsubscribe_unseen_type t h b :
  _listeners b !! t = None -> unsubscribe t h b = Ok b.
Proof. unfold unsubscribe. by intros ->. Qed.

(** [unsubscribe] of a registered callback removes its first registration. *)
Lemma unsubscribe_registered t h b registered :
  _listeners b !! t = Some registered -> h ∈ registered ->
  exists l1 l2,
    registered = l1 ++ h :: l2 ∧ (h ∉ l1)
    ∧ unsubscribe t h b
      = Ok {| _listeners := <[t := l1 ++ l2]> (_listeners b);
              _event_queue := _event_queue b;
              _running := _running b |}.
Proof.
  intros Ht Hin. destruct (list_remove_elem_of h registered Hin) as (l1 & l2 & ? & ? & Hr).
  exists l1, l2. unfold unsubscribe. by rewrite Ht, Hr.
Qed.

(** [unsubscribe] raises exactly when the type has a list of callbacks that
    does not hold the callback. *)
Lemma unsubscribe_raises t h b :
  unsubscribe t h b = Raise ValueError
  <-> exists registered, _listeners b !! t = Some registered ∧ h ∉ registered.
Proof.
  unfold unsubscribe. destruct (_listeners b !! t) as [registered|] eqn:Ht.
  - destruct (decide (h ∈ registered)) as [Hin|Hin].
    + destruct (list_remove_elem_of h registered Hin) as (l1 & l2 & ? & ? & ->).
      split; [done|]. intros (? & [= <-] & ?). done.
    + rewrite list_remove_not_elem_of by done. split; [|done].
      intros _. by exists registered.
  - split; [done|]. by intros (? & ? & ?).
Qed.

(** C6 (what the code does at the failing inputs). Unsubscribing a callback
    that is not registered for a type that has another callback registered
    raises [ValueError]; so does unsubscribing a second time the only callback
    of a type, whose emptied list stays in the table. *)
Theorem unsubscribe_unregistered_raises :
  unsubscribe "ping" 2 (subscribe "ping" 1 __init__) = Raise ValueError
  ∧ match unsubscribe "ping" 1 (subscribe "ping" 1 __init__) with
    | Ok b => unsubscribe "ping" 1 b
    | Raise e => Raise e
    end = Raise ValueError.
Proof. split; by vm_compute. Qed.

End EventBusFacts.

(** ** Reasoning engine *)
Section ReasoningFacts.
Import ReasoningEngine.
Implicit Types (e : ReasoningEngine) (r : Rule) (ctx : Context).

Lemma Qlt_bool_false (a b : Q) : QMicromega.Qlt_bool a b = false -> (b <= a)%Q.
Proof.
  intros H. destruct (Qlt_le_dec a b) as [Hlt|Hle]; [|done].
  apply QMicromega.Qlt_bool_iff in Hlt. congruence.
Qed.

(** [max] returns the first element whose key no other element exceeds. *)
Lemma max_from_first_maximum {A} (key : A -> Q) (rest : list A) (best : A) :
  exists l1 l2,
    best :: rest = l1 ++ Py.max_from key best rest :: l2
    ∧ (forall x, x ∈ l1 -> (key x < key (Py.max_from key best rest))%Q)
    ∧ (forall x, x ∈ l2 -> (key x <= key (Py.max_from key best rest))%Q).
Proof.
  revert best. induction rest as [|x rest IH]; intros best.
  - exists [], []. split; [done|]. split; intros y Hy; by apply elem_of_nil in Hy.
  - simpl. destruct (QMicromega.Qlt_bool (key best) (key x)) eqn:E.
    + apply QMicromega.Qlt_bool_iff in E.
      destruct (IH x) as (l1 & l2 & Heq & H1 & H2).
      set (m := Py.max_from key x rest) in *.
      exists (best :: l1), l2. split; [by rewrite Heq|]. split; [|done].
      intros y [->|Hy]%elem_of_cons; [|by apply H1].
      assert (key x <= key m)%Q; [|lra].
      assert (x ∈ l1 ++ m :: l2) as Hx by (rewrite <- Heq; apply list_elem_of_here).
      apply elem_of_app in Hx as [Hx|[Hx|Hx]%elem_of_cons].
      * by apply Qlt_le_weak, H1.
      * rewrite Hx. apply Qle_refl.
      * by apply H2.
    + apply Qlt_bool_false in E.
      destruct (IH best) as (l1 & l2 & Heq & H1 & H2).
      set (m := Py.max_from key best rest) in *.
      destruct l1 as [|z l1]; injection Heq as Hm Hr.
      * exists [], (x :: rest). split; [by rewrite <- Hm|].
        split; [intros y Hy; by apply elem_of_nil in Hy|].
        intros y [->|Hy]%elem_of_cons; [by rewrite <- Hm|].
        apply H2. by rewrite <- Hr.
      * subst z. exists (best :: x :: l1), l2.
        split; [by rewrite Hr|]. split; [|done].
        assert (key best < key m)%Q by apply H1, list_elem_of_here.
        intros y [->|[->|Hy]%elem_of_cons]%elem_of_cons; [done|lra|].
        by apply H1, list_elem_of_further.
Qed.

(** The stable descending sort: a permutation, in descending key order, that
    keeps the elements of equal key in their input order. *)
Section Sort.
Context {A : Type} (key : A -> Z).
Implicit Types (x : A) (l : list A).

Lemma insert_desc_perm x l : Py.insert_desc key x l ≡ₚ x :: l.
Proof.
  induction l as [|y l IH]; [done|]. simpl.
  destruct (key x <? key y)%Z; [|done].
  rewrite IH. apply Permutation_swap.
Qed.

Lemma sort_desc_perm l : Py.sort_desc key l ≡ₚ l.
Proof.
  induction l as [|x l IH]; [done|].
  unfold Py.sort_desc in *. simpl. by rewrite insert_desc_perm, IH.
Qed.

Lemma insert_desc_sorted x l :
  StronglySorted (fun a b => (key b <= key a)%Z) l ->
  StronglySorted (fun a b => (key b <= key a)%Z) (Py.insert_desc key x l).
Proof.
  induction 1 as [|y l Hl IH Hy]; simpl.
  - repeat constructor.
  - destruct (Z.ltb_spec (key x) (key y)).
    + constructor; [done|].
      rewrite insert_desc_perm. constructor; [lia|done].
    + constructor; [by constructor|].
      constructor; [done|].
      eapply Forall_impl; [exact Hy|]. simpl. intros z ?. lia.
Qed.

Lemma sort_desc_sorted l :
  StronglySorted (fun a b => (key b <= key a)%Z) (Py.sort_desc key l).
Proof.
  induction l as [|x l IH]; [constructor|].
  by apply insert_desc_sorted.
Qed.

Lemma insert_desc_stable (p : Z) x l :
  filter (fun y => key y = p) (Py.insert_desc key x l)
  = filter (fun y => key y = p) (x :: l).
Proof.
  induction l as [|y l IH]; [done|]. simpl.
  destruct (Z.ltb_spec (key x) (key y)); [|done].
  destruct (decide (key y = p)) as [Hy|Hy].
  - rewrite (filter_cons_True _ y), IH by done.
    rewrite !(filter_cons_False _ x) by lia.
    by rewrite filter_cons_True.
  - rewrite (filter_cons_False _ y), IH by done.
    destruct (decide (key x = p)).
    + rewrite !(filter_cons_True _ x) by done. by rewrite filter_cons_False.
    + rewrite !(filter_cons_False _ x) by done. by rewrite filter_cons_False.
Qed.

Lemma sort_desc_stable (p : Z) l :
  filter (fun y => key y = p) (Py.sort_desc key l) = filter (fun y => key y = p) l.
Proof.
  induction l as [|x l IH]; [done|].
  change (Py.sort_desc key (x :: l)) with (Py.insert_desc key x (Py.sort_desc key l)).
  rewrite insert_desc_stable.
  destruct (decide (key x = p)).
  - rewrite !(filter_cons_True _ x) by done. by rewrite IH.
  - rewrite !(filter_cons_False _ x) by done. by rewrite IH.
Qed.

End Sort.

(** The applicable rules are the rules whose condition holds, each at its
    position, by increasing position. *)
Lemma applicable_elem_of e ctx i r :
  (i, r) ∈ applicable e ctx <-> _rules e !! i = Some r ∧ evaluate r ctx = true.
Proof.
  unfold applicable. rewrite list_elem_of_filter, elem_of_lookup_imap. simpl.
  split.
  - intros [? (j & r' & [= -> ->] & ?)]. done.
  - intros [? ?]. split; [done|]. by exists i, r.
Qed.

Lemma imap_pair_sorted (rules : list Rule) (k : nat) :
  StronglySorted (fun a b : nat * Rule => a.1 < b.1)
    (imap (fun i r => (k + i, r)) rules).
Proof.
  revert k. induction rules as [|r rules IH]; intros k; [constructor|].
  rewrite imap_cons. constructor.
  - rewrite (imap_ext _ (fun i r => (S k + i, r))); [apply IH|].
    intros i x _. simpl. f_equal. lia.
  - apply Forall_forall. intros [j r'] (i & x & [= -> ->] & _)%elem_of_lookup_imap.
    simpl. lia.
Qed.

Lemma filter_sorted {B} (R : B -> B -> Prop) (P : B -> Prop)
    `{forall x, Decision (P x)} (l : list B) :
  StronglySorted R l -> StronglySorted R (filter P l).
Proof.
  induction 1 as [|x l Hl IH Hx]; [constructor|].
  destruct (decide (P x)).
  - rewrite filter_cons_True by done. constructor; [done|].
    apply Forall_forall. intros y [_ Hy]%list_elem_of_filter.
    by eapply Forall_forall in Hx.
  - by rewrite filter_cons_False.
Qed.

Lemma applicable_sorted e ctx :
  StronglySorted (fun a b : nat * Rule => a.1 < b.1) (applicable e ctx).
Proof. apply filter_sorted, (imap_pair_sorted (_rules e) 0). Qed.

Lemma best_rule_spec `{Rounding} e ctx i r :
  best_rule e ctx = Some (i, r) ->
  _rules e !! i = Some r ∧ evaluate r ctx = true
  ∧ (forall j r', _rules e !! j = Some r' -> evaluate r' ctx = true ->
       (selection_key e r' <= selection_key e r)%Q)
  ∧ (forall j r', j < i -> _rules e !! j = Some r' -> evaluate r' ctx = true ->
       (selection_key e r' < selection_key e r)%Q).
Proof.
  unfold best_rule.
  destruct (applicable e ctx) as [|first rest] eqn:Happ; [done|].
  intros [= Hbest].
  destruct (max_from_first_maximum (fun ir => selection_key e ir.2) rest first)
    as (l1 & l2 & Heq & H1 & H2).
  rewrite Hbest in Heq, H1, H2. simpl in H1, H2.
  pose proof (applicable_sorted e ctx) as Hsorted.
  rewrite Happ, Heq in Hsorted.
  assert (forall j r', _rules e !! j = Some r' -> evaluate r' ctx = true ->
            (j, r') ∈ l1 ∨ (j, r') = (i, r) ∨ (j, r') ∈ l2) as Hcases.
  { intros j r' Hj He.
    assert ((j, r') ∈ applicable e ctx) as Hin by by apply applicable_elem_of.
    rewrite Happ, Heq, elem_of_app, elem_of_cons in Hin. done. }
  assert ((i, r) ∈ applicable e ctx) as Hir.
  { rewrite Happ, Heq, elem_of_app, elem_of_cons. auto. }
  apply applicable_elem_of in Hir as [Hi He].
  split; [done|]. split; [done|]. split.
  - intros j r' Hj He'.
    destruct (Hcases j r' Hj He') as [Hin|[[= -> ->]|Hin]].
    + apply Qlt_le_weak, (H1 _ Hin).
    + apply Qle_refl.
    + apply (H2 _ Hin).
  - intros j r' Hlt Hj He'.
    destruct (Hcases j r' Hj He') as [Hin|[[= -> ->]|Hin]].
    + apply (H1 _ Hin).
    + lia.
    + apply StronglySorted_app_1_r, StronglySorted_inv in Hsorted as [_ Hl2].
      eapply Forall_forall in Hl2; [|exact Hin]. simpl in Hl2. lia.
Qed.

Lemma best_rule_exists `{Rounding} e ctx :
  (exists r, r ∈ _rules e ∧ evaluate r ctx = true) ->
  exists i r, best_rule e ctx = Some (i, r).
Proof.
  intros (r & [i Hi]%list_elem_of_lookup & He).
  assert ((i, r) ∈ applicable e ctx) as Hin by by apply applicable_elem_of.
  unfold best_rule. destruct (applicable e ctx) as [|first rest].
  - by apply elem_of_nil in Hin.
  - destruct (Py.max_from _ first rest) as [i' r']. by exists i', r'.
Qed.

Lemma reason_best `{Rounding} perceptions context now e i r :
  best_rule e (reasoning_context perceptions context now) = Some (i, r) ->
  let ctx := reasoning_context perceptions context now in
  let history :=
    _reasoning_history e
      ++ [{| rule_used := name r;
             applicable_rules := (fun ir => name ir.2) <$> applicable e ctx;
             decision := (execute r ctx now).1;
             record_timestamp := now |}] in
  reason perceptions context now e
  = ((execute r ctx now).1,
     {| _rules := <[i := (execute r ctx now).2]> (_rules e);
        _reasoning_history :=
          if 1000 <? length history then Py.slice_last 500 history else history;
        _adaptive_weights := _adaptive_weights e |}).
Proof.
  intros Hbest ctx history. subst history ctx. unfold reason. cbv zeta.
  rewrite Hbest. by destruct (execute r _ now).
Qed.

Lemma evaluate_true r ctx :
  evaluate r ctx = true <-> condition r ctx = Some true.
Proof.
  unfold evaluate. destruct (condition r ctx) as [[|]|]; split; congruence.
Qed.

Lemma fl_proper `{Rounding} (a b : Q) : (a == b)%Q -> (fl a == fl b)%Q.
Proof.
  intros Hab. apply Qle_antisym; apply fl_monotone; rewrite Hab; apply Qle_refl.
Qed.

(** C1. For every engine and every reasoning context in which the condition
    of some rule evaluates to true, [reason] executes one rule whose
    condition evaluates to true and returns what its action gives. That rule
    maximizes the product of the priority and the adaptive weight (the weight
    recorded for the name of the rule, 1.0 when none is) as the code computes
    it, a float product: no applicable rule has a greater product, and every
    applicable rule in front of it in the rule order has a strictly smaller
    one, so among maximal rules the earliest is taken and the selected
    position is determined. In exact terms: an applicable rule whose exact
    product is strictly greater can only be a later rule whose float product
    rounds to the same value. The rule order is the one [add_rule] maintains:
    descending priority, rules of equal priority in insertion order (a stable
    sort of the list with the new rule appended), the new rule starting at
    weight 1. *)
Theorem reason_selects_first_maximum `{Rounding} perceptions context now e :
  let ctx := reasoning_context perceptions context now in
  let weight r := default 1%Q (_adaptive_weights e !! name r) in
  let product r := fl (fl (inject_Z (priority r)) * weight r)%Q in
  let applies r := condition r ctx = Some true in
  (forall name condition action priority,
     let rule := Rule__init__ name condition action priority in
     let e' := add_rule name condition action priority e in
     StronglySorted
       (fun r1 r2 => (ReasoningEngine.priority r2 <= ReasoningEngine.priority r1)%Z)
       (_rules e')
     ∧ _rules e' ≡ₚ _rules e ++ [rule]
     ∧ (forall p,
          filter (fun r => ReasoningEngine.priority r = p) (_rules e')
          = filter (fun r => ReasoningEngine.priority r = p) (_rules e ++ [rule]))
     ∧ _adaptive_weights e' !! name = Some 1%Q)
  ∧ ((exists r, r ∈ _rules e ∧ applies r) ->
     exists i r,
       _rules e !! i = Some r
       ∧ applies r
       ∧ (forall j r', _rules e !! j = Some r' -> applies r' ->
            (product r' <= product r)%Q)
       ∧ (forall j r', j < i -> _rules e !! j = Some r' -> applies r' ->
            (product r' < product r)%Q)
       ∧ (forall j r', _rules e !! j = Some r' -> applies r' ->
            (fl (inject_Z (priority r)) == inject_Z (priority r))%Q ->
            (fl (inject_Z (priority r')) == inject_Z (priority r'))%Q ->
            (inject_Z (priority r) * weight r
             < inject_Z (priority r') * weight r')%Q ->
            i < j ∧ (product r' == product r)%Q)
       ∧ (reason perceptions context now e).1
         = match action r ctx with Some result => result | None => PyNone end
       ∧ _rules (reason perceptions context now e).2
         = <[i := match action r ctx with
                  | Some _ =>
                      {| name := name r; condition := condition r;
                         action := action r; priority := priority r;
                         execution_count := S (execution_count r);
                         last_executed := Some now |}
                  | None => r
                  end]> (_rules e)
       ∧ (forall i' r',
            _rules e !! i' = Some r' -> applies r' ->
            (forall j r'', _rules e !! j = Some r'' -> applies r'' ->
               (product r'' <= product r')%Q) ->
            (forall j r'', j < i' -> _rules e !! j = Some r'' -> applies r'' ->
               (product r'' < product r')%Q) ->
            i' = i)).
Proof.
  intros ctx weight product applies. split.
  - intros name condition action priority rule e'. unfold e', add_rule. simpl.
    split; [apply sort_desc_sorted|]. split; [apply sort_desc_perm|].
    split; [intros p; apply sort_desc_stable|apply lookup_insert_eq].
  - intros (r0 & Hin0 & Ha0).
    assert (exists r, r ∈ _rules e ∧ evaluate r ctx = true) as Happ.
    { exists r0. split; [done|]. by apply evaluate_true. }
    destruct (best_rule_exists e ctx Happ) as (i & r & Hbest).
    destruct (best_rule_spec e ctx i r Hbest) as (Hi & He & Hmax & Hfirst).
    assert (forall j r', _rules e !! j = Some r' -> applies r' ->
              (product r' <= product r)%Q) as Hmax'.
    { intros j r' Hj Ha. apply (Hmax j r' Hj). by apply evaluate_true. }
    assert (forall j r', j < i -> _rules e !! j = Some r' -> applies r' ->
              (product r' < product r)%Q) as Hfirst'.
    { intros j r' Hlt Hj Ha. apply (Hfirst j r' Hlt Hj). by apply evaluate_true. }
    exists i, r. rewrite (reason_best _ _ _ _ _ _ Hbest). fold ctx.
    split; [done|]. split; [by apply evaluate_true|].
    split; [done|]. split; [done|]. split; [|split; [|split]].
    + intros j r' Hj Ha Hp Hp' Hlt.
      assert (product r <= product r')%Q as Hle.
      { unfold product. apply fl_monotone. rewrite Hp, Hp'. by apply Qlt_le_weak. }
      pose proof (Hmax' j r' Hj Ha) as Hge.
      split; [|by apply Qle_antisym].
      destruct (lt_eq_lt_dec j i) as [[Hji| ->]|Hij]; [| |done].
      * pose proof (Hfirst' j r' Hji Hj Ha). lra.
      * rewrite Hi in Hj. injection Hj as <-. lra.
    + unfold execute. by destruct (action r ctx).
    + cbn [snd _rules]. unfold execute. by destruct (action r ctx).
    + intros i' r' Hi' Ha' Hm' Hf'.
      assert (applies r) as Ha by by apply evaluate_true.
      destruct (lt_eq_lt_dec i i') as [[Hlt| ->]|Hlt]; [|done|].
      * pose proof (Hf' i r Hlt Hi Ha). pose proof (Hmax' i' r' Hi' Ha'). lra.
      * pose proof (Hfirst' i' r' Hlt Hi' Ha'). pose proof (Hm' i r Hi Ha). lra.
Qed.

(** C1 at an instance: rules B (priority 9), A (priority 10) and C (priority
    9), added in that order, all applicable. Three calls [adapt("A", 0.0)]
    lower the weight of A to 0.85, so that its product 8.5 is below the 9 of
    B and C, which tie; B, inserted before C, is selected. *)
Lemma reason_selects_first_maximum_witness :
  let always := fun _ : Context => Some true in
  let e :=
    adapt_times 3 "A" 0
      (add_rule "C" always (fun _ => Some (PyStr "c")) 9
         (add_rule "A" always (fun _ => Some (PyStr "a")) 10
            (add_rule "B" always (fun _ => Some (PyStr "b")) 9 __init__))) in
  let ctx := reasoning_context [] (PyDict []) 0%Z in
  (exists r, r ∈ _rules e ∧ condition r ctx = Some true)
  ∧ (exists i r,
       _rules e !! i = Some r
       ∧ condition r ctx = Some true
       ∧ (reason [] (PyDict []) 0%Z e).1
         = match action r ctx with Some result => result | None => PyNone end)
  ∧ name <$> _rules e = ["A"; "B"; "C"]
  ∧ (exists w, _adaptive_weights e !! "A" = Some w ∧ (w == 0.85)%Q)
  ∧ (reason [] (PyDict []) 0%Z e).1 = PyStr "b".
Proof.
  intros always e ctx.
  assert (exists r, r ∈ _rules e ∧ condition r ctx = Some true) as Happ.
  { eexists. split; [apply list_elem_of_here|reflexivity]. }
  destruct (reason_selects_first_maximum [] (PyDict []) 0%Z e) as [_ H].
  destruct (H Happ) as (i & r & Hi & He & _ & _ & _ & Hr & _).
  split; [exact Happ|]. split; [by exists i, r|].
  split; [by vm_compute|]. split; [|by vm_compute].
  eexists. split; [by vm_compute|]. by vm_compute.
Defined.

(** C10. When the action of the rule that [reason] selects raises, [reason]
    raises nothing and returns [None]; the rules, and so the execution count
    of the selected rule, are unchanged, and a history record with decision
    [None] is still appended (the newest record of the history). *)
Theorem reason_action_raises `{Rounding} perceptions context now e i r :
  let ctx := reasoning_context perceptions context now in
  let res := reason perceptions context now e in
  let record :=
    {| rule_used := name r;
       applicable_rules := (fun ir => name ir.2) <$> applicable e ctx;
       decision := PyNone;
       record_timestamp := now |} in
  best_rule e ctx = Some (i, r) ->
  action r ctx = None ->
  _rules e !! i = Some r
  ∧ evaluate r ctx = true
  ∧ res.1 = PyNone
  ∧ _rules res.2 = _rules e
  ∧ execution_count <$> _rules res.2 !! i = Some (execution_count r)
  ∧ _adaptive_weights res.2 = _adaptive_weights e
  ∧ last (_reasoning_history res.2) = Some record
  ∧ (length (_reasoning_history e) < 1000 ->
     _reasoning_history res.2 = _reasoning_history e ++ [record]).
Proof.
  intros ctx res record Hbest Hraise.
  destruct (best_rule_spec e ctx i r Hbest) as (Hi & He & _).
  assert (execute r ctx now = (PyNone, r)) as Hexec.
  { unfold execute. by rewrite Hraise. }
  unfold res. rewrite (reason_best _ _ _ _ _ _ Hbest). fold ctx.
  rewrite Hexec. cbn [fst snd _rules _reasoning_history _adaptive_weights].
  fold record. rewrite list_insert_id by done. rewrite Hi.
  repeat (split; [done|]). split.
  - destruct (1000 <? _); [|apply last_snoc].
    apply slice_last_last; [lia|apply last_snoc].
  - intros Hlen. rewrite length_app. simpl.
    destruct (Nat.ltb_spec 1000 (length (_reasoning_history e) + 1)); [lia|done].
Qed.

(** C10 at an instance: one applicable rule, whose action raises. *)
Lemma reason_action_raises_witness :
  let rule := Rule__init__ "r" (fun _ => Some true) (fun _ => None) 1 in
  let e := add_rule "r" (fun _ => Some true) (fun _ => None) 1 __init__ in
  let ctx := reasoning_context [] (PyDict []) 0%Z in
  let res := reason [] (PyDict []) 0%Z e in
  best_rule e ctx = Some (0, rule)
  ∧ action rule ctx = None
  ∧ res.1 = PyNone
  ∧ _rules res.2 = _rules e
  ∧ last (_reasoning_history res.2)
    = Some {| rule_used := "r"; applicable_rules := ["r"];
              decision := PyNone; record_timestamp := 0%Z |}.
Proof.
  intros rule e ctx res.
  assert (best_rule e ctx = Some (0, rule)) as Hbest by reflexivity.
  assert (action rule ctx = None) as Hraise by reflexivity.
  destruct (reason_action_raises [] (PyDict []) 0%Z e 0 rule Hbest Hraise)
    as (_ & _ & Hres & Hrules & _ & _ & Hlast & _).
  split; [exact Hbest|]. split; [exact Hraise|]. split; [exact Hres|].
  split; [exact Hrules|]. exact Hlast.
Defined.

(** The clamp [max(0.1, min(2.0, x))]. *)
Lemma clamp_cases (x : Q) :
  let c := Py.max2 0.1 (Py.min2 2.0 x) in
  ((x < 0.1)%Q ∧ c = 0.1%Q) ∨ ((0.1 <= x)%Q ∧ (x < 2.0)%Q ∧ (c == x)%Q)
  ∨ ((2.0 <= x)%Q ∧ c = 2.0%Q).
Proof.
  unfold Py.max2, Py.min2.
  destruct (QMicromega.Qlt_bool x 2.0) eqn:E2.
  - apply QMicromega.Qlt_bool_iff in E2.
    destruct (QMicromega.Qlt_bool 0.1 x) eqn:E1.
    + apply QMicromega.Qlt_bool_iff in E1. right. left.
      split; [lra|]. split; [lra|reflexivity].
    + apply Qlt_bool_false in E1. destruct (Qlt_le_dec x 0.1) as [Hlt|Hle].
      * left. done.
      * right. left. split; [done|]. split; [done|]. lra.
  - apply Qlt_bool_false in E2. right. right. split; [done|]. reflexivity.
Qed.

(** C4, as the code has it. For a rule name with recorded weight [w], [adapt]
    sets the weight to [w + (score - 0.5) * 0.1] clamped to [0.1, 2.0], which
    lies in [0.1, 2.0]; a score above 0.5 never decreases a weight of at most
    2.0, strictly increases a weight below 2.0 and leaves a weight of 2.0
    where it is; a score below 0.5 never increases a weight of at least 0.1,
    strictly decreases a weight above 0.1 and leaves a weight of 0.1 where it
    is; the
    other weights, the rules and the history are unchanged, and [adapt] on a
    name without a recorded weight changes nothing. *)
Theorem adapt_clamped rule_name (performance_score : Q) e (w : Q) :
  _adaptive_weights e !! rule_name = Some w ->
  let e' := adapt rule_name performance_score e in
  let update := (w + (performance_score - 0.5) * 0.1)%Q in
  (exists w',
     _adaptive_weights e' !! rule_name = Some w'
     ∧ w' = Py.max2 0.1 (Py.min2 2.0 update)
     ∧ (0.1 <= w')%Q ∧ (w' <= 2.0)%Q
     ∧ ((0.1 <= update)%Q -> (update <= 2.0)%Q -> (w' == update)%Q)
     ∧ ((update < 0.1)%Q -> (w' == 0.1)%Q)
     ∧ ((2.0 < update)%Q -> (w' == 2.0)%Q)
     ∧ ((0.5 < performance_score)%Q -> (w < 2.0)%Q -> (w < w')%Q)
     ∧ ((0.5 < performance_score)%Q -> (w <= 2.0)%Q -> (w <= w')%Q)
     ∧ ((0.5 < performance_score)%Q -> (w == 2.0)%Q -> (w' == w)%Q)
     ∧ ((performance_score < 0.5)%Q -> (0.1 < w)%Q -> (w' < w)%Q)
     ∧ ((performance_score < 0.5)%Q -> (0.1 <= w)%Q -> (w' <= w)%Q)
     ∧ ((performance_score < 0.5)%Q -> (w == 0.1)%Q -> (w' == w)%Q))
  ∧ (forall other, other <> rule_name ->
       _adaptive_weights e' !! other = _adaptive_weights e !! other)
  ∧ _rules e' = _rules e
  ∧ _reasoning_history e' = _reasoning_history e
  ∧ (weights_in_range e -> weights_in_range e')
  ∧ (forall absent score,
       _adaptive_weights e !! absent = None -> adapt absent score e = e).
Proof.
  intros Hw e' update.
  assert (e' = {| _rules := _rules e;
                  _reasoning_history := _reasoning_history e;
                  _adaptive_weights :=
                    <[rule_name := Py.max2 0.1 (Py.min2 2.0 update)]>
                      (_adaptive_weights e) |}) as ->.
  { unfold e', adapt. by rewrite Hw. }
  cbn [_rules _reasoning_history _adaptive_weights].
  pose proof (clamp_cases update) as Hc. cbv zeta in Hc.
  split; [|split; [|split; [done|split; [done|split]]]].
  - exists (Py.max2 0.1 (Py.min2 2.0 update)).
    split; [apply lookup_insert_eq|]. split; [done|].
    unfold update in *.
    destruct Hc as [[? ->]|[(? & ? & ->)|[? ->]]]; repeat split; intros; lra.
  - intros other Hne. by rewrite lookup_insert_ne.
  - intros Hrange name' w'. unfold weights_in_range in *.
    cbn [_adaptive_weights]. destruct (decide (rule_name = name')) as [->|Hne].
    + rewrite lookup_insert_eq. intros [= <-].
      destruct Hc as [[? ->]|[(? & ? & ->)|[? ->]]]; split; lra.
    + rewrite lookup_insert_ne by done. apply Hrange.
  - intros absent score Habsent. unfold adapt. by rewrite Habsent.
Qed.

(** C4 at an instance: a fresh rule, weight 1, and a score of 0.9. *)
Lemma adapt_clamped_witness :
  let e := add_rule "r" (fun _ => Some true) (fun _ => Some PyNone) 1 __init__ in
  let e' := adapt "r" 0.9 e in
  _adaptive_weights e !! "r" = Some 1%Q
  ∧ (0.5 < 0.9)%Q ∧ (1 < 2.0)%Q
  ∧ exists w', _adaptive_weights e' !! "r" = Some w'
               ∧ (w' == 1.04)%Q ∧ (1 < w')%Q.
Proof.
  intros e e'.
  assert (_adaptive_weights e !! "r" = Some 1%Q) as Hw by reflexivity.
  assert (0.5 < 0.9)%Q as Hscore by lra.
  assert (1 < 2.0)%Q as Hbelow by lra.
  destruct (adapt_clamped "r" 0.9 e 1 Hw)
    as [(w' & Hw' & _ & _ & _ & Hin & _ & _ & Hup & _) _].
  split; [exact Hw|]. split; [exact Hscore|]. split; [exact Hbelow|].
  exists w'. split; [exact Hw'|]. split; [|exact (Hup Hscore Hbelow)].
  rewrite Hin; lra.
Defined.

(** C4 as stated fails at the upper bound: after 21 calls [adapt("r", 1.0)] on
    a fresh rule the weight is 2.0, and one more call with the score 1.0,
    above 0.5, leaves it at 2.0: not strictly greater. *)
Lemma adapt_at_upper_bound_not_increasing :
  let e :=
    adapt_times 21 "r" 1
      (add_rule "r" (fun _ => Some true) (fun _ => Some PyNone) 1 __init__) in
  exists w w',
    _adaptive_weights e !! "r" = Some w
    ∧ _adaptive_weights (adapt "r" 1 e) !! "r" = Some w'
    ∧ (0.5 < 1)%Q
    ∧ (w == 2.0)%Q
    ∧ ~ (w < w')%Q.
Proof.
  intros e. exists 2.0%Q, 2.0%Q.
  split; [by vm_compute|]. split; [by vm_compute|].
  split; [lra|]. split; [reflexivity|lra].
Qed.

End ReasoningFacts.

(** ** Cognitive core *)
Section CognitiveCoreFacts.
Import CognitiveCore.
Implicit Types (c : CognitiveCore) (op : Op).

Lemma think_state `{Rounding} now c : _state (think now c).2 = _state c.
Proof.
  unfold think. destruct (_perceptions c); [done|].
  destruct (reasoning c) as [engine|]; [|done].
  by destruct (ReasoningEngine.reason _ _ _ _).
Qed.

Lemma compact_state c : _state (compact c) = _state c.
Proof. unfold compact. by destruct (100 <? _). Qed.

Lemma cognitive_cycle_state `{Rounding} now c : _state (cognitive_cycle now c).1 = _state c.
Proof.
  unfold cognitive_cycle. pose proof (think_state now c) as Ht.
  destruct (think now c) as [thoughts c1]. cbn [snd] in Ht.
  repeat case_match; cbn [fst]; rewrite ?compact_state; done.
Qed.

Lemma run_step_state `{Rounding} now c :
  _state (run_step now c) = "stopped" ∨ _state (run_step now c) = _state c.
Proof.
  unfold run_step. destruct (_running c); [|by left].
  pose proof (cognitive_cycle_state now c) as Hc.
  destruct (cognitive_cycle now c) as [c' [raised|]]; [by left|by right].
Qed.

(** Every operation but the entry of [run] leaves a stopped core stopped. *)
Lemma exec_op_stopped `{Rounding} c op :
  is_run_enter op = false ->
  _state c = "stopped" -> _state (exec_op c op) = "stopped".
Proof.
  intros Hop Hc. destruct op; simpl; try done.
  - by rewrite think_state.
  - by rewrite cognitive_cycle_state.
  - destruct (run_step_state now c) as [?|?]; congruence.
Qed.

(** C7, as the code has it. Once the state of a core is "stopped", it stays
    "stopped" through every sequence of operations on the instance that does
    not call [run] again; a new call of [run] sets it to "running". *)
Theorem stopped_until_run_again `{Rounding} c (ops : list Op) :
  _state c = "stopped" ->
  (forall op, op ∈ ops -> is_run_enter op = false) ->
  state (exec ops c) = "stopped"
  ∧ forall now, state (exec_op (exec ops c) (OpRunEnter now)) = "running".
Proof.
  intros Hc Hops. split; [|done].
  revert c Hc. induction ops as [|op ops IH]; intros c Hc; [done|].
  apply IH.
  - intros op' Hin. by apply Hops, list_elem_of_further.
  - apply exec_op_stopped; [|done]. apply Hops, list_elem_of_here.
Qed.

(** C7 at an instance: a core that ran and was stopped, then perceives,
    thinks, acts, cycles, and is stopped once more. *)
Lemma stopped_until_run_again_witness :
  let c :=
    exec [OpRunEnter 0%Z; OpRunStep 1%Z; OpStop; OpRunStep 2%Z]
      (__init__ EventBus.__init__ None None) in
  let ops :=
    [OpPerceive (PyInt 1) "sensor" 3%Z; OpThink 4%Z;
     OpAct (PyDict [("action", PyStr "wait")]) 5%Z; OpCognitiveCycle 6%Z;
     OpRunStep 7%Z; OpStop; OpState] in
  _state c = "stopped"
  ∧ (forall op, op ∈ ops -> is_run_enter op = false)
  ∧ state (exec ops c) = "stopped"
  ∧ state (exec_op (exec ops c) (OpRunEnter 8%Z)) = "running".
Proof.
  intros c ops.
  assert (_state c = "stopped") as Hc by reflexivity.
  assert (forall op, op ∈ ops -> is_run_enter op = false) as Hops.
  { intros op Hin. unfold ops in Hin.
    repeat (apply elem_of_cons in Hin as [->|Hin]; [reflexivity|]).
    by apply elem_of_nil in Hin. }
  destruct (stopped_until_run_again c ops Hc Hops) as [Hs Hr].
  split; [exact Hc|]. split; [exact Hops|]. split; [exact Hs|exact (Hr 8%Z)].
Defined.

(** C7 as stated fails: a core whose [run] has completed after [stop] is in
    state "stopped", and calling [run] on it again puts it in state
    "running". *)
Lemma stopped_core_runs_again :
  let c :=
    exec [OpRunEnter 0%Z; OpRunStep 1%Z; OpStop; OpRunStep 2%Z]
      (__init__ EventBus.__init__ None None) in
  state c = "stopped"
  ∧ state (exec [OpRunEnter 3%Z] c) = "running".
Proof. split; reflexivity. Qed.

End CognitiveCoreFacts.

(** * Further properties *)

(** ** Event bus: subscriptions and the stopped loop *)
Section EventBusMore.
Import EventBus.
Implicit Types (b : EventBus) (tr : list Obs) (w : EventBus * list Obs)
  (e : Event) (h : Callback).

Lemma list_remove_first h (l1 l2 : list Callback) :
  h ∉ l1 -> Py.list_remove h (l1 ++ h :: l2) = Ok (l1 ++ l2).
Proof.
  induction l1 as [|y l1 IH]; intros Hin; simpl.
  - by rewrite decide_True.
  - apply not_elem_of_cons in Hin as [Hne Hin].
    rewrite decide_False by congruence. by rewrite IH.
Qed.

(** X1. What [unsubscribe] does, case by case: on a type never seen it
    changes nothing; when the list of the type holds the callback it removes
    the first registration and nothing else; when the list of the type does not
    hold the callback it raises [ValueError]. *)
Theorem unsubscribe_outcome t h b :
  (_listeners b !! t = None -> unsubscribe t h b = Ok b)
  ∧ (forall registered,
       _listeners b !! t = Some registered -> h ∉ registered ->
       unsubscribe t h b = Raise ValueError)
  ∧ (forall l1 l2,
       _listeners b !! t = Some (l1 ++ h :: l2) -> h ∉ l1 ->
       unsubscribe t h b
       = Ok {| _listeners := <[t := l1 ++ l2]> (_listeners b);
               _event_queue := _event_queue b;
               _running := _running b |}).
Proof.
  unfold unsubscribe. split; [by intros ->|]. split.
  - intros registered -> Hin. by rewrite list_remove_not_elem_of.
  - intros l1 l2 -> Hin. by rewrite list_remove_first.
Qed.

(** X1 at an instance: a callback registered twice among others loses its
    first registration only. *)
Lemma unsubscribe_outcome_witness :
  let b := subscribe_all [("a", 1); ("a", 2); ("a", 3); ("a", 2)] __init__ in
  _listeners b !! "a" = Some ([1] ++ 2 :: [3; 2])
  ∧ (2 ∉ [1])
  ∧ unsubscribe "a" 2 b
    = Ok {| _listeners := <["a" := [1] ++ [3; 2]]> (_listeners b);
            _event_queue := _event_queue b;
            _running := _running b |}.
Proof.
  intros b.
  assert (_listeners b !! "a" = Some ([1] ++ 2 :: [3; 2])) as Hl by reflexivity.
  assert (2 ∉ [1]) as Hin by compute_done.
  destruct (unsubscribe_outcome "a" 2 b) as (_ & _ & H).
  split; [exact Hl|]. split; [exact Hin|].
  exact (H [1] [3; 2] Hl Hin).
Defined.

(** X2. [subscribe] followed by [unsubscribe] of the same callback never
    raises and touches only the list of that type: when the callback was not
    registered before, the list is back to what it was; when it was, its
    earliest registration is the one removed, so the callback moves to the
    end of the list. *)
Theorem subscribe_then_unsubscribe t h b :
  exists b',
    unsubscribe t h (subscribe t h b) = Ok b'
    ∧ _event_queue b' = _event_queue b
    ∧ _running b' = _running b
    ∧ (forall t', t' <> t -> _listeners b' !! t' = _listeners b !! t')
    ∧ (h ∉ default [] (_listeners b !! t) ->
       _listeners b' !! t = Some (default [] (_listeners b !! t)))
    ∧ (forall l1 l2, default [] (_listeners b !! t) = l1 ++ h :: l2 -> h ∉ l1 ->
         _listeners b' !! t = Some (l1 ++ l2 ++ [h])).
Proof.
  remember (default [] (_listeners b !! t)) as old eqn:Hdef.
  assert (exists l1 l2, old ++ [h] = l1 ++ h :: l2 ∧ (h ∉ l1)
                        ∧ (h ∉ old -> l1 = old ∧ l2 = [])
                        ∧ (forall k1 k2, old = k1 ++ h :: k2 -> h ∉ k1 ->
                             l1 = k1 ∧ l2 = k2 ++ [h])) as (l1 & l2 & Heq & Hl1 & Hno & Hyes).
  { destruct (decide (h ∈ old)) as [Hin|Hin].
    - destruct (list_remove_elem_of h old Hin) as (k1 & k2 & Hold & Hk1 & _).
      exists k1, (k2 ++ [h]). rewrite Hold, <- app_assoc. split; [done|].
      split; [done|]. split.
      + intros Hn. exfalso. apply Hn. set_solver.
      + intros j1 j2 Hj Hj1.
        assert (k1 = j1) as <-.
        { clear -Hj Hk1 Hj1. revert j1 Hj Hj1.
          induction k1 as [|x k1 IH]; intros [|y j1] Hj Hj1; simplify_eq/=.
          - done.
          - exfalso. apply Hj1. set_solver.
          - exfalso. apply Hk1. set_solver.
          - f_equal. apply IH; [set_solver|done|set_solver]. }
        split; [done|]. apply app_inv_head in Hj. by simplify_eq.
    - exists old, []. split; [done|]. split; [done|]. split; [done|].
      intros k1 k2 Hk _. exfalso. apply Hin. rewrite Hk. set_solver. }
  eexists. unfold unsubscribe, subscribe. cbn [_listeners _event_queue _running].
  rewrite lookup_insert_eq, <- Hdef, Heq, (list_remove_first h l1 l2 Hl1).
  split; [done|]. cbn [_listeners _event_queue _running].
  split; [done|]. split; [done|]. split; [|split].
  - intros t' Hne. by rewrite !lookup_insert_ne.
  - intros Hn. destruct (Hno Hn) as [-> ->]. by rewrite lookup_insert_eq, app_nil_r.
  - intros k1 k2 Hk Hk1. destruct (Hyes k1 k2 Hk Hk1) as [-> ->].
    by rewrite lookup_insert_eq.
Qed.

(** X2 at an instance: the callback 1, registered first of two, ends up
    last. *)
Lemma subscribe_then_unsubscribe_witness :
  let b := subscribe_all [("a", 1); ("a", 2)] __init__ in
  exists b',
    unsubscribe "a" 1 (subscribe "a" 1 b) = Ok b'
    ∧ default [] (_listeners b !! "a") = [] ++ 1 :: [2]
    ∧ (1 ∉ ([] : list Callback))
    ∧ _listeners b' !! "a" = Some [2; 1].
Proof.
  intros b.
  destruct (subscribe_then_unsubscribe "a" 1 b) as (b' & Hb' & _ & _ & _ & _ & H).
  assert (default [] (_listeners b !! "a") = [] ++ 1 :: [2]) as Hl by reflexivity.
  assert (1 ∉ ([] : list Callback)) as Hin by apply not_elem_of_nil.
  exists b'. split; [exact Hb'|]. split; [exact Hl|]. split; [exact Hin|].
  exact (H [] [2] Hl Hin).
Defined.










End EventBusMore.

(** ** Memory module: long-term lists, index, files and recall *)
Section MemoryMore.
Import MemoryModule.
Implicit Types (m : MemoryModule) (fs : FileSystem) (w : MemoryModule * FileSystem).

Lemma store_long_term_other memory_type data now w other :
  other <> memory_type ->
  _long_term (store memory_type data now w).1 !! other = _long_term w.1 !! other.
Proof.
  intros Hne. unfold store. case (_ =? _); cbn [fst _long_term];
    destruct (_long_term w.1 !! memory_type);
    rewrite lookup_alter_ne, ?lookup_insert_ne by done; done.
Qed.

Lemma store_index memory_type data now w :
  _index_by_type (store memory_type data now w).1 !! memory_type
  = Some (default [] (_index_by_type w.1 !! memory_type)
            ++ [Z.of_nat (length (default [] (_long_term w.1 !! memory_type)))])
  ∧ forall other, other <> memory_type ->
      _index_by_type (store memory_type data now w).1 !! other
      = _index_by_type w.1 !! other.
Proof.
  assert (forall long_term : gmap string (list MemoryEntry),
            long_term !! memory_type
            = Some (default [] (_long_term w.1 !! memory_type)
                      ++ [{| type := memory_type; data := data; timestamp := now |}]) ->
            (Z.of_nat (length (default [] (long_term !! memory_type))) - 1)%Z
            = Z.of_nat (length (default [] (_long_term w.1 !! memory_type)))) as Hlen.
  { intros long_term ->. simpl. rewrite length_app. simpl. lia. }
  pose proof (store_long_term memory_type data now w) as Hlong.
  unfold store in *. split.
  - revert Hlong. case (_ =? _); cbn [fst _long_term _index_by_type];
      intros Hlong; rewrite (Hlen _ Hlong);
      destruct (_index_by_type w.1 !! memory_type) as [offsets|] eqn:E;
      rewrite lookup_alter_eq, ?lookup_insert_eq, ?E; done.
  - intros other Hne. case (_ =? _); cbn [fst _index_by_type];
      destruct (_index_by_type w.1 !! memory_type);
      rewrite lookup_alter_ne, ?lookup_insert_ne by done; done.
Qed.

Lemma store_all_long_term calls w t :
  let stored := filter (fun entry => type entry = t) (entry_of <$> calls) in
  let w' := store_all calls w in
  _long_term w'.1 !! t
  = match stored with
    | [] => _long_term w.1 !! t
    | _ :: _ => Some (default [] (_long_term w.1 !! t) ++ stored)
    end.
Proof.
  intros stored w'. subst stored w'.
  induction calls as [|[[t' d] now] calls IH] using rev_ind; [done|].
  rewrite store_all_snoc, fmap_app, filter_app. cbn [fst snd fmap list_fmap].
  destruct (decide (t' = t)) as [->|Hne].
  - rewrite store_long_term, IH.
    rewrite (filter_cons_True _ (entry_of (t, d, now))) by done.
    rewrite filter_nil.
    destruct (filter _ (entry_of <$> calls)) as [|e es]; [done|].
    simpl. by rewrite <- app_assoc.
  - rewrite store_long_term_other, IH by done.
    rewrite (filter_cons_False _ (entry_of (t', d, now))) by done.
    by rewrite filter_nil, app_nil_r.
Qed.

(** X5. The long-term lists are append-only under [store]: after any run of
    [store] calls on any module, the list of a type is its former list
    followed by the entries stored with that type, in storage order; a type
    that was absent and received nothing is still absent. *)
Theorem long_term_is_appended calls w t :
  let stored := filter (fun entry => type entry = t) (entry_of <$> calls) in
  let w' := store_all calls w in
  _long_term w'.1 !! t
  = match stored with
    | [] => _long_term w.1 !! t
    | _ :: _ => Some (default [] (_long_term w.1 !! t) ++ stored)
    end.
Proof. apply store_all_long_term. Qed.

Lemma store_index_consistent memory_type data now w :
  index_consistent w.1 -> index_consistent (store memory_type data now w).1.
Proof.
  intros H t. destruct (store_index memory_type data now w) as [Hi Ho].
  destruct (decide (t = memory_type)) as [->|Hne].
  - rewrite Hi, store_long_term, (H memory_type). simpl. f_equal.
    destruct (_long_term w.1 !! memory_type) as [entries|]; simpl.
    + by rewrite length_app, seq_app, fmap_app.
    + done.
  - rewrite Ho, store_long_term_other by done. apply H.
Qed.

(** X6. The index mirrors the long-term lists as long as only [store] is
    used: on a module constructed without a file, and after any run of
    [store] calls on a module whose index is consistent, the index of each
    type is 0, 1, .., n-1 for a list of n entries. [forget] does not maintain
    it: after a [forget] that removes at least one entry the index is no
    longer consistent. *)
Theorem index_follows_store path max fs calls w memory_type older_than_days now :
  (files fs !! path = None -> index_consistent (__init__ path max fs))
  ∧ (index_consistent w.1 -> index_consistent (store_all calls w).1)
  ∧ (index_consistent w.1 ->
     (0 < (forget memory_type older_than_days now w).1)%Z ->
     ~ index_consistent (forget memory_type older_than_days now w).2.1).
Proof.
  split; [|split].
  - intros Hfile t. unfold __init__, _load. simpl. rewrite Hfile. simpl.
    by rewrite !lookup_empty.
  - intros H. induction calls as [|c calls IH] using rev_ind; [done|].
    rewrite store_all_snoc. by apply store_index_consistent.
  - intros H. unfold forget. cbn [fst].
    pose proof (H memory_type) as Ht.
    destruct (_long_term w.1 !! memory_type) as [entries|] eqn:E;
      cbn [fst snd]; [|lia].
    intros Hpos H'. specialize (H' memory_type).
    cbn [_index_by_type _long_term] in H'.
    rewrite lookup_insert_eq, Ht in H'. simpl in H'.
    injection H' as H'. apply (f_equal length) in H'.
    rewrite !length_fmap, !length_seq in H'. lia.
Qed.

(** X6 at an instance: three stores of type "x" at instants 1, 2, 3 on a
    fresh module, then a [forget] with its cutoff at instant 2. *)
Lemma index_follows_store_witness :
  let w0 := (__init__ "memory_data.json" 100 empty_fs, empty_fs) in
  let w := store_all (numbered_stores 3) w0 in
  files empty_fs !! "memory_data.json" = None
  ∧ index_consistent w0.1
  ∧ index_consistent w.1
  ∧ (0 < (forget "x" 0 2%Z w).1)%Z
  ∧ ~ index_consistent (forget "x" 0 2%Z w).2.1.
Proof.
  intros w0 w.
  destruct (index_follows_store "memory_data.json" 100 empty_fs
              (numbered_stores 3) w0 "x" 0%Z 2%Z) as (H0 & Hs & _).
  destruct (index_follows_store "memory_data.json" 100 empty_fs
              [] w "x" 0%Z 2%Z) as (_ & _ & Hf).
  assert (files empty_fs !! "memory_data.json" = None) as Hfile by reflexivity.
  assert (0 < (forget "x" 0 2%Z w).1)%Z as Hpos by (by vm_compute).
  split; [exact Hfile|]. split; [exact (H0 Hfile)|].
  split; [exact (Hs (H0 Hfile))|]. split; [exact Hpos|].
  exact (Hf (Hs (H0 Hfile)) Hpos).
Defined.

Lemma slice_last_length {A} (n : Z) (l : list A) :
  (1 <= n)%Z -> length (Py.slice_last n l) = Nat.min (Z.to_nat n) (length l).
Proof. intros Hn. rewrite slice_last_pos by done. rewrite length_drop. lia. Qed.

Lemma slice_last_zero {A} (l : list A) : Py.slice_last 0 l = l.
Proof. unfold Py.slice_last. simpl. by destruct (length l). Qed.

Lemma slice_last_subseteq {A} (n : Z) (l : list A) : Py.slice_last n l ⊆ l.
Proof. unfold Py.slice_last. apply subseteq_drop. Qed.

(** X8. What [recall] returns. With [limit >= 1] it returns at most [limit]
    entries. As soon as the short-term buffer holds an entry of the queried
    type, only entries of the buffer (of that type) are returned, whatever
    the long-term list holds. With [limit = 0] the slice [[-0:]] is the whole
    list: every match is returned, not none. *)
Theorem recall_limit_and_precedence query (limit : Z) m results :
  recall query limit m = Some results ->
  let matches := filter (fun entry => type entry = query) (_short_term m) in
  ((1 <= limit)%Z -> length results <= Z.to_nat limit)
  ∧ (matches <> [] ->
     forall entry, entry ∈ results -> entry ∈ _short_term m ∧ type entry = query)
  ∧ (matches <> [] -> (1 <= limit)%Z ->
     length results = Nat.min (Z.to_nat limit) (length matches))
  ∧ (limit = 0%Z ->
     results = matches
     ∨ (matches = [] ∧ _long_term m !! query = Some results)
     ∨ (matches = [] ∧ results = _short_term m)).
Proof.
  intros Hrecall matches. unfold recall in Hrecall. fold matches in Hrecall.
  assert (exists source,
            results = Py.slice_last limit source
            ∧ (matches <> [] -> source = matches)
            ∧ (source = matches
               ∨ (matches = [] ∧ _long_term m !! query = Some source)
               ∨ (matches = [] ∧ source = _short_term m)))
    as (source & -> & Hm & Hsource).
  { destruct matches as [|e es] eqn:E.
    - destruct (_long_term m !! query) as [entries|].
      + injection Hrecall as <-. exists entries. split; [done|]. split; [done|].
        right. left. done.
      + destruct (decide (query = "recent_context")); [|done].
        destruct (Py.slice_last limit (_short_term m)) eqn:Es; [done|].
        injection Hrecall as <-. exists (_short_term m).
        split; [done|]. split; [done|]. right. right. done.
    - injection Hrecall as <-. exists (e :: es). split; [done|].
      split; [done|]. by left. }
  split; [|split; [|split]].
  - intros Hl. rewrite slice_last_length by done. lia.
  - intros Hne entry Hin. rewrite (Hm Hne) in Hin.
    apply slice_last_subseteq, list_elem_of_filter in Hin. tauto.
  - intros Hne Hl. rewrite slice_last_length, (Hm Hne) by done. done.
  - intros ->. rewrite slice_last_zero.
    destruct Hsource as [->|[[? ?]|[? ->]]]; auto.
Qed.

(** X8 at an instance: twelve entries of one type in a buffer of capacity
    five; [recall] with limit 3 returns three of the five buffered entries,
    and with limit 0 all five. *)
Lemma recall_limit_and_precedence_witness :
  let m := (store_all (numbered_stores 12) (__init__ "f" 5 empty_fs, empty_fs)).1 in
  let matches := filter (fun entry => type entry = "x") (_short_term m) in
  exists r3 r0,
    recall "x" 3 m = Some r3 ∧ recall "x" 0 m = Some r0
    ∧ matches <> []
    ∧ length r3 = 3
    ∧ data <$> r0 = PyInt <$> [8; 9; 10; 11; 12]%Z.
Proof.
  intros m matches.
  assert (exists r3, recall "x" 3 m = Some r3) as [r3 H3]
    by (eexists; vm_compute; reflexivity).
  assert (exists r0, recall "x" 0 m = Some r0) as [r0 H0]
    by (eexists; vm_compute; reflexivity).
  assert (matches <> []) as Hne
    by (intros H%(f_equal length); vm_compute in H; discriminate).
  destruct (recall_limit_and_precedence "x" 3 m r3 H3) as (_ & _ & Hlen & _).
  destruct (recall_limit_and_precedence "x" 0 m r0 H0) as (_ & _ & _ & Hall).
  exists r3, r0. split; [exact H3|]. split; [exact H0|]. split; [exact Hne|].
  split.
  - rewrite (Hlen Hne); [vm_compute; reflexivity|lia].
  - destruct (Hall eq_refl) as [->|[[Hm _]|[Hm _]]];
      [vm_compute; reflexivity|contradiction|contradiction].
Defined.

(** X9. [forget] does not hide what is still buffered: a query whose type
    has an entry in the short-term buffer, and any query of another type than
    the forgotten one, is answered by [recall] after [forget] exactly as
    before. *)
Theorem forget_keeps_buffered_recall memory_type older_than_days now m fs
    query (limit : Z) :
  filter (fun entry => type entry = query) (_short_term m) <> []
  ∨ query <> memory_type ->
  recall query limit (forget memory_type older_than_days now (m, fs)).2.1
  = recall query limit m.
Proof.
  intros Hq. unfold forget, recall. cbn [fst].
  destruct (_long_term m !! memory_type) as [entries|] eqn:E;
    cbn [fst snd _short_term _long_term]; [|done].
  destruct (filter _ (_short_term m)) as [|e es]; [|done].
  destruct Hq as [?|Hne]; [done|]. by rewrite lookup_insert_ne.
Qed.

(** X9 at an instance: an entry stored at instant 1 is forgotten at instant 5
    and still recalled, from the buffer. *)
Lemma forget_keeps_buffered_recall_witness :
  let w := store "x" (PyInt 1) 1%Z (__init__ "f" 10 empty_fs, empty_fs) in
  let r := forget "x" 0 5%Z (w.1, w.2) in
  filter (fun entry => type entry = "x") (_short_term w.1) <> []
  ∧ r.1 = 1%Z
  ∧ _long_term r.2.1 !! "x" = Some []
  ∧ recall "x" 10 r.2.1 = recall "x" 10 w.1
  ∧ data <$> default [] (recall "x" 10 r.2.1) = [PyInt 1].
Proof.
  intros w r.
  assert (filter (fun entry => type entry = "x") (_short_term w.1) <> []) as Hne
    by (intros H%(f_equal length); vm_compute in H; discriminate).
  pose proof (forget_keeps_buffered_recall "x" 0 5%Z w.1 w.2 "x" 10
                (or_introl Hne)) as H.
  split; [exact Hne|]. split; [vm_compute; reflexivity|].
  split; [vm_compute; reflexivity|]. split; [exact H|].
  vm_compute; reflexivity.
Defined.

(** X10. Forgetting every entry of a type leaves an empty list under the
    key, not a missing key: when all the long-term entries of the type are at
    or before the cutoff, [forget] returns their number, and [recall] of the
    type then returns the empty list (and not [None]) once the buffer holds
    no entry of the type. *)
Theorem forget_all_leaves_empty_list memory_type older_than_days now m fs
    entries (limit : Z) :
  _long_term m !! memory_type = Some entries ->
  Forall (fun entry => (timestamp entry <= now - older_than_days * day)%Z) entries ->
  filter (fun entry => type entry = memory_type) (_short_term m) = [] ->
  let r := forget memory_type older_than_days now (m, fs) in
  r.1 = Z.of_nat (length entries)
  ∧ _long_term r.2.1 !! memory_type = Some []
  ∧ recall memory_type limit r.2.1 = Some [].
Proof.
  intros Hl Hold Hshort. unfold forget, recall. cbn [fst]. rewrite Hl.
  cbn [fst snd _short_term _long_term]. rewrite Hshort, lookup_insert_eq.
  assert (filter (fun entry => (now - older_than_days * day < timestamp entry)%Z)
            entries = []) as ->.
  { clear Hl. induction Hold as [|e es He Hes IH]; [done|].
    rewrite filter_cons_False by lia. done. }
  simpl. split; [lia|]. split; [done|].
  unfold Py.slice_last. by rewrite drop_nil.
Qed.

(** X10 at an instance: two entries stored at instants 1 and 2 in a module of
    capacity 0, forgotten at instant 2. *)
Lemma forget_all_leaves_empty_list_witness :
  let w := store_all (numbered_stores 2) (__init__ "f" 0 empty_fs, empty_fs) in
  let r := forget "x" 0 2%Z (w.1, w.2) in
  exists entries,
    _long_term w.1 !! "x" = Some entries
    ∧ Forall (fun entry => (timestamp entry <= 2 - 0 * day)%Z) entries
    ∧ filter (fun entry => type entry = "x") (_short_term w.1) = []
    ∧ r.1 = 2%Z
    ∧ recall "x" 10 r.2.1 = Some [].
Proof.
  intros w r.
  assert (exists entries, _long_term w.1 !! "x" = Some entries) as [entries Hl]
    by (eexists; vm_compute; reflexivity).
  assert (Forall (fun entry => (timestamp entry <= 2 - 0 * day)%Z) entries) as Hold.
  { vm_compute in Hl. injection Hl as <-. repeat constructor; by vm_compute. }
  assert (filter (fun entry => type entry = "x") (_short_term w.1) = []) as Hs
    by (vm_compute; reflexivity).
  destruct (forget_all_leaves_empty_list "x" 0 2%Z w.1 w.2 entries 10 Hl Hold Hs)
    as (Hc & _ & Hr).
  exists entries. split; [exact Hl|]. split; [exact Hold|]. split; [exact Hs|].
  split; [|exact Hr].
  etransitivity; [exact Hc|]. vm_compute in Hl. injection Hl as <-. reflexivity.
Defined.

Lemma forget_count (cutoff : Z) (entries : list MemoryEntry) :
  (Z.of_nat (length entries)
   - Z.of_nat (length (filter (fun entry => (cutoff < timestamp entry)%Z) entries))
   = Z.of_nat (length (filter (fun entry => (timestamp entry <= cutoff)%Z) entries)))%Z.
Proof.
  induction entries as [|e es IH]; [done|].
  destruct (decide (cutoff < timestamp e)%Z).
  - rewrite filter_cons_True, filter_cons_False by lia. simpl length. lia.
  - rewrite filter_cons_False, filter_cons_True by lia. simpl length. lia.
Qed.

Lemma forget_spec memory_type older_than_days now w :
  let cutoff := (now - older_than_days * day)%Z in
  let entries := default [] (_long_term w.1 !! memory_type) in
  let r := forget memory_type older_than_days now w in
  r.1 = Z.of_nat (length (filter (fun entry => (timestamp entry <= cutoff)%Z) entries))
  ∧ default [] (_long_term r.2.1 !! memory_type)
    = filter (fun entry => (cutoff < timestamp entry)%Z) entries.
Proof.
  unfold forget. cbn [fst snd].
  destruct (_long_term w.1 !! memory_type) as [entries|] eqn:E;
    cbn [fst snd _long_term default].
  - rewrite lookup_insert_eq. split; [apply forget_count|done].
  - rewrite E. done.
Qed.

(** X11. [forget] called twice for the same type. Each call reads the clock,
    so the two cutoffs differ, also when the arguments are the same. The
    first call returns the number of entries at or before its cutoff; the
    second returns the number of entries after the first cutoff and at or
    before the second: those that came of age in between, which is why a
    repeated call need not return 0. What is left is what is newer than the
    later of the two cutoffs. When the second cutoff is not later than the
    first (the same clock reading, or a larger number of days) the second
    call returns 0 and leaves the module as the first call left it. *)
Theorem forget_twice memory_type days1 now1 days2 now2 w :
  let cutoff1 := (now1 - days1 * day)%Z in
  let cutoff2 := (now2 - days2 * day)%Z in
  let entries := default [] (_long_term w.1 !! memory_type) in
  let r1 := forget memory_type days1 now1 w in
  let r2 := forget memory_type days2 now2 r1.2 in
  r1.1 = Z.of_nat (length (filter (fun entry =>
           (timestamp entry <= cutoff1)%Z) entries))
  ∧ r2.1 = Z.of_nat (length (filter (fun entry =>
             (cutoff1 < timestamp entry <= cutoff2)%Z) entries))
  ∧ default [] (_long_term r2.2.1 !! memory_type)
    = filter (fun entry => (Z.max cutoff1 cutoff2 < timestamp entry)%Z) entries
  ∧ ((cutoff2 <= cutoff1)%Z -> r2.1 = 0%Z ∧ r2.2.1 = r1.2.1).
Proof.
  intros cutoff1 cutoff2 entries r1 r2.
  destruct (forget_spec memory_type days1 now1 w) as [Hc1 Hl1].
  destruct (forget_spec memory_type days2 now2 r1.2) as [Hc2 Hl2].
  fold r1 in Hc1, Hl1. fold r2 in Hc2, Hl2. fold entries in Hc1, Hl1.
  fold cutoff1 in Hc1, Hl1. fold cutoff2 in Hc2, Hl2.
  rewrite Hl1 in Hc2, Hl2. rewrite list_filter_filter in Hc2, Hl2.
  assert (r2.1 = Z.of_nat (length (filter (fun entry =>
            (cutoff1 < timestamp entry <= cutoff2)%Z) entries))) as Hcount.
  { rewrite Hc2. do 2 f_equal. apply list_filter_iff. intros e. lia. }
  split; [exact Hc1|]. split; [exact Hcount|]. split.
  - rewrite Hl2. apply list_filter_iff. intros e. lia.
  - intros Hle.
    assert (r2.1 = 0%Z) as H0.
    { rewrite Hcount.
      replace (filter (fun entry => (cutoff1 < timestamp entry <= cutoff2)%Z) entries)
        with (@nil MemoryEntry); [done|].
      symmetry. generalize entries. intros l.
      induction l as [|e es IH]; [done|].
      rewrite filter_cons_False by lia. exact IH. }
    split; [exact H0|].
    subst r2 r1. unfold forget. cbn [fst snd].
    destruct (_long_term w.1 !! memory_type) as [es|] eqn:E;
      cbn [fst snd _long_term _short_term _index_by_type memory_file
           max_short_term].
    + rewrite lookup_insert_eq.
      cbn [fst snd _long_term _short_term _index_by_type memory_file
           max_short_term].
      rewrite list_filter_filter_r, insert_insert_eq; [done|].
      intros e. fold cutoff1 cutoff2. lia.
    + rewrite E. done.
Qed.

(** X11 at an instance: entries stored at instants 1, 2 and 3 with an empty
    buffer. Forgetting at instant 1 and again at instant 2 with the same
    arguments removes one entry each time; forgetting at instant 1 twice
    removes one entry, then none. *)
Lemma forget_twice_witness :
  let w := store_all (numbered_stores 3) (__init__ "f" 0 empty_fs, empty_fs) in
  let later := forget "x" 0 2%Z (forget "x" 0 1%Z w).2 in
  let at_once := forget "x" 0 1%Z (forget "x" 0 1%Z w).2 in
  (forget "x" 0 1%Z w).1 = 1%Z
  ∧ later.1 = 1%Z
  ∧ data <$> default [] (_long_term later.2.1 !! "x") = [PyInt 3]
  ∧ (1 - 0 * day <= 1 - 0 * day)%Z
  ∧ at_once.1 = 0%Z
  ∧ at_once.2.1 = (forget "x" 0 1%Z w).2.1.
Proof.
  intros w later at_once.
  destruct (forget_twice "x" 0 1%Z 0 2%Z w) as (H1 & H2 & H3 & _).
  destruct (forget_twice "x" 0 1%Z 0 1%Z w) as (_ & _ & _ & H4).
  assert (1 - 0 * day <= 1 - 0 * day)%Z as Hle by lia.
  split; [etransitivity; [exact H1|]; vm_compute; reflexivity|].
  split; [etransitivity; [exact H2|]; vm_compute; reflexivity|].
  split; [etransitivity; [exact (f_equal (fmap data) H3)|]; vm_compute; reflexivity|].
  split; [exact Hle|]. exact (H4 Hle).
Defined.

(** X12. After [clear] nothing can be recalled: every query, with every
    limit, returns [None] (also "recent_context"). *)
Theorem clear_then_recall now w query (limit : Z) :
  recall query limit (clear now w).1 = None.
Proof.
  unfold clear, recall. cbn [fst _short_term _long_term].
  rewrite filter_nil, lookup_empty.
  destruct (decide (query = "recent_context")); [|done].
  unfold Py.slice_last. by rewrite drop_nil.
Qed.

(** X13. Every buffered entry is also in long-term memory: after any run of
    [store] calls on a freshly constructed module (whatever file it loaded),
    each entry of the short-term buffer is in the long-term list of its
    type. *)
Theorem buffered_entries_are_in_long_term path max fs calls entry :
  let w := store_all calls (__init__ path max fs, fs) in
  entry ∈ _short_term w.1 ->
  entry ∈ default [] (_long_term w.1 !! type entry).
Proof.
  intros w Hin. subst w.
  destruct (init_short_term path max fs) as [He Hm].
  rewrite store_all_short_term in Hin by done.
  apply subseteq_drop in Hin.
  assert (entry ∈ filter (fun e => type e = type entry) (entry_of <$> calls)) as Hf
    by by apply list_elem_of_filter.
  rewrite store_all_long_term.
  destruct (filter _ (entry_of <$> calls)) as [|e es]; [by apply elem_of_nil in Hf|].
  simpl. apply elem_of_app. by right.
Qed.

(** X13 at an instance: the newest of three entries in a buffer of capacity
    two. *)
Lemma buffered_entries_are_in_long_term_witness :
  let w := store_all (numbered_stores 3) (__init__ "f" 2 empty_fs, empty_fs) in
  let entry := {| type := "x"; data := PyInt 3; timestamp := 3%Z |} in
  entry ∈ _short_term w.1
  ∧ entry ∈ default [] (_long_term w.1 !! type entry).
Proof.
  intros w entry.
  assert (entry ∈ _short_term w.1) as Hin.
  { replace (_short_term w.1)
      with [{| type := "x"; data := PyInt 2; timestamp := 2%Z |}; entry]
      by (vm_compute; reflexivity).
    apply list_elem_of_further, list_elem_of_here. }
  split; [exact Hin|].
  exact (buffered_entries_are_in_long_term "f" 2 empty_fs (numbered_stores 3) entry Hin).
Defined.

End MemoryMore.

(** ** Reasoning engine: invariants, removal, defaults and history *)
Section ReasoningMore.
Import ReasoningEngine.
Implicit Types (e : ReasoningEngine) (r : Rule) (ctx : Context).

Lemma split_at_name_spec name (rules : list Rule) :
  match split_at_name name rules with
  | Some (before, after) =>
      exists r, rules = before ++ r :: after
                ∧ ReasoningEngine.name r = name
                ∧ Forall (fun r' => ReasoningEngine.name r' <> name) before
  | None => Forall (fun r' => ReasoningEngine.name r' <> name) rules
  end.
Proof.
  induction rules as [|r rules IH]; simpl; [constructor|].
  destruct (decide (ReasoningEngine.name r = name)) as [Hn|Hn].
  - exists r. done.
  - destruct (split_at_name name rules) as [[before after]|].
    + destruct IH as (r' & -> & ? & ?). exists r'. split; [done|].
      split; [done|]. by constructor.
    + by constructor.
Qed.

Lemma sorted_same_priorities (rules rules' : list Rule) :
  priority <$> rules = priority <$> rules' ->
  StronglySorted (fun r1 r2 => (priority r2 <= priority r1)%Z) rules ->
  StronglySorted (fun r1 r2 => (priority r2 <= priority r1)%Z) rules'.
Proof.
  intros Heq Hs. revert rules' Heq.
  induction Hs as [|r rules Hs IH Hr]; intros [|r' rules'] Heq;
    try done; [constructor|].
  injection Heq as Hp Heq.
  change (priority <$> rules = priority <$> rules') in Heq.
  constructor; [by apply IH|].
  apply (Forall_fmap priority (fun p => (p <= priority r')%Z)).
  rewrite <- Heq, <- Hp. by apply Forall_fmap.
Qed.

Lemma sorted_insert_same_priority (rules : list Rule) i r r' :
  rules !! i = Some r -> priority r' = priority r ->
  StronglySorted (fun r1 r2 => (priority r2 <= priority r1)%Z) rules ->
  StronglySorted (fun r1 r2 => (priority r2 <= priority r1)%Z) (<[i := r']> rules).
Proof.
  intros Hi Hp. apply sorted_same_priorities.
  rewrite list_fmap_insert, Hp.
  rewrite list_insert_id; [done|]. by rewrite list_lookup_fmap, Hi.
Qed.

Lemma reason_rules `{Rounding} perceptions context now e :
  let ctx := reasoning_context perceptions context now in
  let e' := (reason perceptions context now e).2 in
  _adaptive_weights e' = _adaptive_weights e
  ∧ ((best_rule e ctx = None ∧ e' = e)
     ∨ exists i r,
         best_rule e ctx = Some (i, r)
         ∧ _rules e !! i = Some r
         ∧ evaluate r ctx = true
         ∧ _rules e' = <[i := (execute r ctx now).2]> (_rules e)
         ∧ priority (execute r ctx now).2 = priority r
         ∧ name (execute r ctx now).2 = name r).
Proof.
  intros ctx e'. subst e'.
  destruct (best_rule e ctx) as [[i r]|] eqn:Hbest.
  - rewrite (reason_best _ _ _ _ _ _ Hbest). fold ctx. cbn [snd _adaptive_weights].
    split; [done|]. right. exists i, r.
    destruct (best_rule_spec e ctx i r Hbest) as (Hi & He & _).
    repeat (split; [done|]). unfold execute. by destruct (action r ctx).
  - unfold reason. fold ctx. rewrite Hbest. split; [done|]. by left.
Qed.

Lemma reason_history_length `{Rounding} perceptions context now e :
  length (_reasoning_history e) <= 1000 ->
  length (_reasoning_history (reason perceptions context now e).2) <= 1000.
Proof.
  intros Hlen. unfold reason.
  destruct (best_rule e _) as [[i r]|]; [|done].
  destruct (execute r _ now) as [result rule']. cbn [snd _reasoning_history].
  destruct (Nat.ltb_spec 1000 (length (_reasoning_history e ++
    [{| rule_used := name r;
        applicable_rules :=
          (fun ir => name ir.2)
            <$> applicable e (reasoning_context perceptions context now);
        decision := result; record_timestamp := now |}]))) as [Hlt|Hge].
  - rewrite slice_last_length by lia. lia.
  - done.
Qed.

(** X14. Whatever calls are made on an engine ([add_rule], [remove_rule],
    [reason], [adapt], in any number and order), its rules stay in descending
    order of priority, every recorded weight stays within [0.1, 2.0], and the
    reasoning history never holds more than 1000 records. *)
Theorem engine_invariants `{Rounding} (ops : list Op) :
  let e := exec ops __init__ in
  sorted_by_priority e
  ∧ weights_in_range e
  ∧ length (_reasoning_history e) <= 1000.
Proof.
  unfold exec.
  induction ops as [|op ops IH] using rev_ind.
  - split; [constructor|]. split; [|simpl; lia].
    intros n w. simpl. by rewrite lookup_empty.
  - rewrite foldl_snoc. cbv zeta in IH. destruct IH as (Hs & Hw & Hh).
    set (e := foldl exec_op __init__ ops) in *.
    destruct op as [name condition action priority|name|perceptions context now
                   |rule_name score]; cbn [exec_op].
    + split; [apply sort_desc_sorted|]. split; [|done].
      intros n w. cbn [add_rule _adaptive_weights].
      destruct (decide (name = n)) as [->|Hne].
      * rewrite lookup_insert_eq. intros [= <-]. split; lra.
      * rewrite lookup_insert_ne by done. apply Hw.
    + unfold remove_rule. pose proof (split_at_name_spec name (_rules e)) as Hsplit.
      destruct (split_at_name name (_rules e)) as [[before after]|]; [|done].
      destruct Hsplit as (r & Hr & _). cbn [snd]. split; [|split; [|done]].
      * unfold sorted_by_priority in *. cbn [_rules]. rewrite Hr in Hs.
        apply StronglySorted_app in Hs as (H12 & H1 & H2).
        apply StronglySorted_inv in H2 as [H2 _].
        apply StronglySorted_app. split; [|done].
        intros x1 x2 Hx1 Hx2. apply H12; [done|by apply list_elem_of_further].
      * intros n w. cbn [_adaptive_weights]. intros [_ Hl]%lookup_delete_Some.
        by apply Hw in Hl.
    + destruct (reason_rules perceptions context now e) as [Hwe Hr].
      cbv zeta in Hwe, Hr.
      split; [|split; [|by apply reason_history_length]].
      * destruct Hr as [[_ ->]|(i & r & _ & Hi & _ & Hrules & Hp & _)]; [done|].
        unfold sorted_by_priority. rewrite Hrules.
        by apply (sorted_insert_same_priority _ i r).
      * intros n w. rewrite Hwe. apply Hw.
    + unfold adapt. destruct (_adaptive_weights e !! rule_name) as [w0|]; [|done].
      split; [done|]. split; [|done].
      intros n w. cbn [_adaptive_weights].
      destruct (decide (rule_name = n)) as [->|Hne].
      * rewrite lookup_insert_eq. intros [= <-].
        pose proof (clamp_cases (w0 + (score - 0.5) * 0.1)) as Hc. cbv zeta in Hc.
        destruct Hc as [[? ->]|[(? & ? & ->)|[? ->]]]; split; lra.
      * rewrite lookup_insert_ne by done. apply Hw.
Qed.

Lemma best_rule_none `{Rounding} e ctx :
  (forall r, r ∈ _rules e -> evaluate r ctx = false) -> best_rule e ctx = None.
Proof.
  intros Hno. unfold best_rule.
  destruct (applicable e ctx) as [|[i r] rest] eqn:E; [done|].
  assert ((i, r) ∈ applicable e ctx) as Hin by (rewrite E; apply list_elem_of_here).
  apply applicable_elem_of in Hin as [Hi He].
  rewrite (Hno r) in He; [done|]. by eapply list_elem_of_lookup_2.
Qed.

(** X15. When no rule is applicable (no rule at all, or every condition
    false or raising), [reason] returns the default decision and leaves the
    engine untouched: no rule is executed and no history record is written.
    The default action is "process" above 10 perceptions, "observe" for 1 to
    10 and "wait" for none. *)
Theorem reason_without_applicable_rule `{Rounding} perceptions context now e :
  let ctx := reasoning_context perceptions context now in
  (forall r, r ∈ _rules e -> evaluate r ctx = false) ->
  exists decision,
    reason perceptions context now e = (PyDict decision, e)
    ∧ Py.dict_get "action" decision
      = Some (PyStr (if 10 <? length perceptions then "process"
                     else if 0 <? length perceptions then "observe"
                     else "wait"))
    ∧ Py.dict_get "confidence" decision
      = Some (PyFloat (if 10 <? length perceptions then 0.6
                       else if 0 <? length perceptions then 0.5
                       else 0.4)).
Proof.
  intros ctx Hno. unfold reason. fold ctx. rewrite (best_rule_none e ctx Hno).
  unfold _default_reasoning, ctx, reasoning_context.
  cbn [ReasoningEngine.perceptions].
  destruct (10 <? length perceptions); [by eexists|].
  destruct (0 <? length perceptions); by eexists.
Qed.

(** X15 at an instance: the only rule has a condition that raises; three
    perceptions. *)
Lemma reason_without_applicable_rule_witness :
  let e := add_rule "r" (fun _ => None) (fun _ => Some PyNone) 1 __init__ in
  let perceptions := [PyInt 1; PyInt 2; PyInt 3] in
  let ctx := reasoning_context perceptions (PyDict []) 0%Z in
  (forall r, r ∈ _rules e -> evaluate r ctx = false)
  ∧ exists decision,
      reason perceptions (PyDict []) 0%Z e = (PyDict decision, e)
      ∧ Py.dict_get "action" decision = Some (PyStr "observe").
Proof.
  intros e perceptions ctx.
  assert (forall r, r ∈ _rules e -> evaluate r ctx = false) as Hno.
  { intros r Hin. unfold e in Hin. cbn in Hin.
    apply list_elem_of_singleton in Hin as ->. reflexivity. }
  destruct (reason_without_applicable_rule perceptions (PyDict []) 0%Z e Hno)
    as (decision & Hr & Ha & _).
  split; [exact Hno|]. exists decision. split; [exact Hr|exact Ha].
Defined.

(** X16. [remove_rule] returns [True] exactly when a rule has the name; it
    then removes the first rule of that name and no other, keeping the order
    of the rest, and deletes the weight recorded for the name. When no rule
    has the name it returns [False] and changes nothing. *)
Theorem remove_rule_first_of_name name e :
  let res := remove_rule name e in
  (res.1 = true <-> exists r, r ∈ _rules e ∧ ReasoningEngine.name r = name)
  ∧ (res.1 = false -> res.2 = e)
  ∧ (res.1 = true ->
     exists before r after,
       _rules e = before ++ r :: after
       ∧ ReasoningEngine.name r = name
       ∧ Forall (fun r' => ReasoningEngine.name r' <> name) before
       ∧ _rules res.2 = before ++ after
       ∧ _adaptive_weights res.2 = delete name (_adaptive_weights e)
       ∧ _reasoning_history res.2 = _reasoning_history e).
Proof.
  unfold remove_rule. pose proof (split_at_name_spec name (_rules e)) as Hsplit.
  destruct (split_at_name name (_rules e)) as [[before after]|]; cbn [fst snd].
  - destruct Hsplit as (r & Hr & Hn & Hb). split; [|split; [done|]].
    + split; [|done]. intros _. exists r. split; [|done]. rewrite Hr. set_solver.
    + intros _. by exists before, r, after.
  - split; [|done]. split; [done|]. intros (r & Hin & Hn).
    eapply Forall_forall in Hsplit; [|exact Hin]. done.
Qed.

(** X16 at an instance: of two rules called "a", the one of higher priority
    comes first and is the one removed. *)
Lemma remove_rule_first_of_name_witness :
  let always := fun _ : Context => Some true in
  let e :=
    add_rule "a" always (fun _ => Some (PyInt 2)) 9
      (add_rule "b" always (fun _ => Some (PyInt 1)) 5
         (add_rule "a" always (fun _ => Some (PyInt 0)) 1 __init__)) in
  let res := remove_rule "a" e in
  res.1 = true
  ∧ (priority <$> _rules e) = [9; 5; 1]%Z
  ∧ (priority <$> _rules res.2) = [5; 1]%Z
  ∧ exists before r after,
      _rules e = before ++ r :: after ∧ _rules res.2 = before ++ after.
Proof.
  intros always e res.
  assert (res.1 = true) as Ht by reflexivity.
  destruct (remove_rule_first_of_name "a" e) as (_ & _ & H).
  destruct (H Ht) as (before & r & after & H1 & _ & _ & H2 & _).
  split; [exact Ht|]. split; [reflexivity|]. split; [reflexivity|].
  by exists before, r, after.
Defined.

(** X17. Rules that share a name share one weight entry, and [remove_rule]
    deletes it with the first of them: when at least two rules have the name,
    after [remove_rule] a rule of that name is still present, no weight is
    recorded for it (so it is selected with the default weight 1.0: its
    product is its priority times 1.0, the priority itself when no rounding
    takes place), and [adapt] on the name changes nothing. *)
Theorem remove_rule_with_duplicate_name `{Rounding} name e :
  2 <= length (filter (fun r => ReasoningEngine.name r = name) (_rules e)) ->
  let e' := (remove_rule name e).2 in
  (exists r, r ∈ _rules e' ∧ ReasoningEngine.name r = name)
  ∧ _adaptive_weights e' !! name = None
  ∧ (forall r, ReasoningEngine.name r = name ->
       selection_key e' r = fl (fl (inject_Z (priority r)) * 1)%Q
       ∧ (selection_key (H:=exact_arithmetic) e' r == inject_Z (priority r))%Q)
  ∧ (forall score, adapt name score e' = e').
Proof.
  intros Hdup e'. subst e'. unfold remove_rule.
  pose proof (split_at_name_spec name (_rules e)) as Hsplit.
  destruct (split_at_name name (_rules e)) as [[before after]|]; cbn [snd].
  - destruct Hsplit as (r & Hr & Hn & Hb).
    assert (_adaptive_weights
              {| _rules := before ++ after;
                 _reasoning_history := _reasoning_history e;
                 _adaptive_weights := delete name (_adaptive_weights e) |}
            !! name = None) as Hw by apply lookup_delete_eq.
    split; [|split; [done|split]].
    + rewrite Hr, filter_app, filter_cons_True, length_app in Hdup by done.
      assert (filter (fun r0 => ReasoningEngine.name r0 = name) before = []) as Hnil.
      { clear -Hb. induction Hb as [|x l Hx Hl IH]; [done|].
        by rewrite filter_cons_False. }
      rewrite Hnil in Hdup. simpl in Hdup.
      destruct (filter (fun r0 => ReasoningEngine.name r0 = name) after)
        as [|r' rest] eqn:E; [simpl in Hdup; lia|].
      assert (r' ∈ filter (fun r0 => ReasoningEngine.name r0 = name) after) as Hin
        by (rewrite E; apply list_elem_of_here).
      apply list_elem_of_filter in Hin as [Hn' Hin].
      exists r'. split; [|done]. cbn [_rules]. apply elem_of_app. by right.
    + intros r0 Hn0. unfold selection_key. rewrite Hn0, Hw. simpl.
      split; [done|ring].
    + intros score. unfold adapt. by rewrite Hw.
  - exfalso.
    assert (filter (fun r0 => ReasoningEngine.name r0 = name) (_rules e) = []) as Hnil.
    { clear -Hsplit. induction Hsplit as [|x l Hx Hl IH]; [done|].
      by rewrite filter_cons_False. }
    rewrite Hnil in Hdup. simpl in Hdup. lia.
Qed.

(** X17 at an instance: two rules called "a", the weight of "a" adapted, then
    one of them removed. *)
Lemma remove_rule_with_duplicate_name_witness :
  let always := fun _ : Context => Some true in
  let e :=
    adapt "a" 1
      (add_rule "a" always (fun _ => Some (PyInt 2)) 9
         (add_rule "a" always (fun _ => Some (PyInt 0)) 1 __init__)) in
  let e' := (remove_rule "a" e).2 in
  2 <= length (filter (fun r => name r = "a") (_rules e))
  ∧ (exists r, r ∈ _rules e' ∧ name r = "a")
  ∧ _adaptive_weights e' !! "a" = None
  ∧ adapt "a" 1 e' = e'.
Proof.
  intros always e e'.
  assert (2 <= length (filter (fun r => name r = "a") (_rules e))) as Hdup.
  { replace (length (filter (fun r => name r = "a") (_rules e))) with 2
      by (vm_compute; reflexivity). lia. }
  destruct (remove_rule_with_duplicate_name "a" e Hdup) as (Hr & Hw & _ & Ha).
  split; [exact Hdup|]. split; [exact Hr|]. split; [exact Hw|exact (Ha 1%Q)].
Defined.

Lemma slice_last_one {A} (l : list A) (x : A) :
  last l = Some x -> Py.slice_last 1 l = [x].
Proof.
  intros [l' ->]%last_Some. rewrite slice_last_pos by lia.
  replace (length (l' ++ [x]) - Z.to_nat 1) with (length l')
    by (rewrite length_app; simpl; lia).
  by rewrite drop_app_length.
Qed.

(** X18. The history records what [reason] returned and is cut in one step:
    after a [reason] call that selected a rule, [get_history(1)] is the record
    of that call, naming the selected rule and holding the returned decision;
    below 1000 records the history grows by that one record, and on a history
    of exactly 1000 records it drops to the newest 499 followed by the new
    record. *)
Theorem reason_records_history `{Rounding} perceptions context now e i r :
  let ctx := reasoning_context perceptions context now in
  let res := reason perceptions context now e in
  let record :=
    {| rule_used := name r;
       applicable_rules := (fun ir => name ir.2) <$> applicable e ctx;
       decision := res.1;
       record_timestamp := now |} in
  best_rule e ctx = Some (i, r) ->
  get_history 1 res.2 = [record]
  ∧ (length (_reasoning_history e) < 1000 ->
     _reasoning_history res.2 = _reasoning_history e ++ [record])
  ∧ (length (_reasoning_history e) = 1000 ->
     _reasoning_history res.2 = drop 501 (_reasoning_history e) ++ [record]
     ∧ length (_reasoning_history res.2) = 500).
Proof.
  intros ctx res record Hbest. subst record res.
  rewrite (reason_best _ _ _ _ _ _ Hbest). fold ctx.
  cbn [fst snd _reasoning_history]. unfold get_history. cbn [_reasoning_history].
  set (record := {| rule_used := name r;
                    applicable_rules := (fun ir => name ir.2) <$> applicable e ctx;
                    decision := (execute r ctx now).1;
                    record_timestamp := now |}).
  set (h := _reasoning_history e).
  assert (length (h ++ [record]) = length h + 1) as Hlen
    by (rewrite length_app; simpl; lia).
  split; [|split].
  - apply slice_last_one.
    destruct (1000 <? _); [|apply last_snoc].
    apply slice_last_last; [lia|apply last_snoc].
  - intros Hlt. destruct (Nat.ltb_spec 1000 (length (h ++ [record]))); [lia|done].
  - intros H1000. destruct (Nat.ltb_spec 1000 (length (h ++ [record]))); [|lia].
    rewrite slice_last_pos by lia. rewrite Hlen, H1000.
    change (1000 + 1 - Z.to_nat 500) with 501.
    rewrite drop_app_le by lia. split; [done|].
    rewrite length_app, length_drop. simpl. lia.
Qed.

(** X18 at an instance: the first decision of an engine with one rule. *)
Lemma reason_records_history_witness :
  let rule := Rule__init__ "r" (fun _ => Some true) (fun _ => Some (PyInt 7)) 1 in
  let e := add_rule "r" (fun _ => Some true) (fun _ => Some (PyInt 7)) 1 __init__ in
  let ctx := reasoning_context [] (PyDict []) 0%Z in
  let res := reason [] (PyDict []) 0%Z e in
  best_rule e ctx = Some (0, rule)
  ∧ length (_reasoning_history e) < 1000
  ∧ get_history 1 res.2
    = [{| rule_used := "r"; applicable_rules := ["r"];
          decision := PyInt 7; record_timestamp := 0%Z |}]
  ∧ length (_reasoning_history res.2) = 1.
Proof.
  intros rule e ctx res.
  assert (best_rule e ctx = Some (0, rule)) as Hbest by reflexivity.
  assert (length (_reasoning_history e) < 1000) as Hlen by (simpl; lia).
  destruct (reason_records_history [] (PyDict []) 0%Z e 0 rule Hbest)
    as (Hg & Hgrow & _).
  split; [exact Hbest|]. split; [exact Hlen|]. split; [exact Hg|].
  unfold res. rewrite (Hgrow Hlen). reflexivity.
Defined.

(** X19. [reason] touches at most one rule, and only its counters. The
    weights, the number of rules, their names and their priorities are the
    same after the call. A rule whose condition did not return [True] (it
    returned [False] or raised) is left exactly as it was. And either every
    rule is as it was, or exactly one position changed: the rule there is the
    selected one, its condition returned [True], its action returned the
    decision that [reason] returns, its [execution_count] went up by one, its
    [last_executed] is the instant of the call and its other attributes are
    unchanged, while every other rule, applicable or not, is exactly as it
    was. The rules are all untouched exactly when no rule is applicable or
    the action of the selected rule raises. *)
Theorem reason_frame `{Rounding} perceptions context now e :
  let ctx := reasoning_context perceptions context now in
  let res := reason perceptions context now e in
  let executed r :=
    {| name := name r; condition := condition r; action := action r;
       priority := priority r;
       execution_count := S (execution_count r);
       last_executed := Some now |} in
  name <$> _rules res.2 = name <$> _rules e
  ∧ priority <$> _rules res.2 = priority <$> _rules e
  ∧ _adaptive_weights res.2 = _adaptive_weights e
  ∧ length (_rules res.2) = length (_rules e)
  ∧ (forall j r, _rules e !! j = Some r -> condition r ctx <> Some true ->
       _rules res.2 !! j = Some r)
  ∧ ((_rules res.2 = _rules e
      ∧ (best_rule e ctx = None
         ∨ exists i r, best_rule e ctx = Some (i, r) ∧ action r ctx = None
                       ∧ res.1 = PyNone))
     ∨ (exists i r result,
          best_rule e ctx = Some (i, r)
          ∧ _rules e !! i = Some r
          ∧ condition r ctx = Some true
          ∧ action r ctx = Some result
          ∧ res.1 = result
          ∧ _rules res.2 !! i = Some (executed r)
          ∧ executed r <> r
          ∧ forall j, j <> i -> _rules res.2 !! j = _rules e !! j)).
Proof.
  intros ctx res executed.
  destruct (reason_rules perceptions context now e) as [Hw Hr].
  cbv zeta in Hw, Hr. fold ctx res in Hr. fold res in Hw.
  split; [|split; [|split; [done|split; [|split]]]].
  - destruct Hr as [[_ ->]|(i & r & _ & Hi & _ & -> & _ & Hn)]; [done|].
    rewrite list_fmap_insert, Hn.
    apply list_insert_id. by rewrite list_lookup_fmap, Hi.
  - destruct Hr as [[_ ->]|(i & r & _ & Hi & _ & -> & Hp & _)]; [done|].
    rewrite list_fmap_insert, Hp.
    apply list_insert_id. by rewrite list_lookup_fmap, Hi.
  - destruct Hr as [[_ ->]|(i & r & _ & _ & _ & -> & _)]; [done|].
    by rewrite length_insert.
  - intros j r Hj He.
    destruct Hr as [[_ ->]|(i & r0 & _ & Hi & He0 & -> & _)]; [done|].
    destruct (decide (i = j)) as [->|Hne].
    + rewrite Hj in Hi. injection Hi as <-. by apply evaluate_true in He0.
    + by rewrite list_lookup_insert_ne.
  - destruct Hr as [[Hnone ->]|(i & r & Hbest & Hi & He & Hrules & _)];
      [left; split; [done|by left]|].
    assert (res.1 = (execute r ctx now).1) as Hres.
    { unfold res. by rewrite (reason_best _ _ _ _ _ _ Hbest). }
    unfold execute in Hrules, Hres.
    destruct (action r ctx) as [result|] eqn:Hact; cbn [fst snd] in Hrules, Hres.
    + right. exists i, r, result.
      split; [done|]. split; [done|]. split; [by apply evaluate_true|].
      split; [done|]. split; [done|]. rewrite Hrules. split; [|split].
      * apply list_lookup_insert_eq. by eapply lookup_lt_Some.
      * intros Heq%(f_equal execution_count). simpl in Heq. lia.
      * intros j Hne. by rewrite list_lookup_insert_ne.
    + left. split; [by rewrite Hrules, list_insert_id|].
      right. by exists i, r.
Qed.

(** X19 at an instance: a rule whose condition raises, before a rule that
    is selected and executed and a rule that is applicable but not selected:
    only the selected one is touched. *)
Lemma reason_frame_witness :
  let broken := Rule__init__ "broken" (fun _ => None) (fun _ => Some PyNone) 9 in
  let e :=
    add_rule "low" (fun _ => Some true) (fun _ => Some (PyInt 2)) 1
      (add_rule "high" (fun _ => Some true) (fun _ => Some (PyInt 1)) 5
         (add_rule "broken" (fun _ => None) (fun _ => Some PyNone) 9 __init__)) in
  let ctx := reasoning_context [] (PyDict []) 0%Z in
  let res := reason [] (PyDict []) 0%Z e in
  name <$> _rules e = ["broken"; "high"; "low"]
  ∧ _rules e !! 0 = Some broken
  ∧ condition broken ctx <> Some true
  ∧ _rules res.2 !! 0 = Some broken
  ∧ res.1 = PyInt 1
  ∧ execution_count <$> _rules res.2 = [0; 1; 0]
  ∧ last_executed <$> _rules res.2 = [None; Some 0%Z; None].
Proof.
  intros broken e ctx res.
  assert (_rules e !! 0 = Some broken) as H0 by reflexivity.
  assert (condition broken ctx <> Some true) as He by discriminate.
  destruct (reason_frame [] (PyDict []) 0%Z e) as (_ & _ & _ & _ & H & _).
  split; [reflexivity|]. split; [exact H0|]. split; [exact He|].
  split; [exact (H 0 broken H0 He)|]. split; [reflexivity|].
  split; reflexivity.
Defined.

End ReasoningMore.

(** ** Cognitive core: cycles *)
Section CognitiveCoreMore.
Import CognitiveCore.
Implicit Types (c : CognitiveCore).

Lemma cycle_empty_log `{Rounding} now c :
  _perceptions c = [] -> cognitive_cycle now c = (c, None).
Proof.
  intros Hp. unfold cognitive_cycle, think. rewrite Hp.
  unfold compact. rewrite Hp. done.
Qed.

(** X20. A rule action that raises ends the run loop. When the core has a
    reasoning engine and perceptions, and the action of the rule that the
    engine selects raises, the decision is [None], [decision.get] raises
    [AttributeError] out of [cognitive_cycle], and a running [run] loop goes
    to its [finally] block: the state becomes "stopped" although [stop] was
    never called ([_running] is still set). *)
Theorem raising_action_stops_run `{Rounding} now c e i r :
  let ctx :=
    ReasoningEngine.reasoning_context (_perceptions c) (recalled_context c) now in
  reasoning c = Some e ->
  _perceptions c <> [] ->
  ReasoningEngine.best_rule e ctx = Some (i, r) ->
  ReasoningEngine.action r ctx = None ->
  (cognitive_cycle now c).2 = Some AttributeError
  ∧ (_running c = true ->
     _state (run_step now c) = "stopped" ∧ _running (run_step now c) = true).
Proof.
  intros ctx He Hp Hbest Hraise. subst ctx.
  assert (exists c1, cognitive_cycle now c = (c1, Some AttributeError)
                     ∧ _running c1 = _running c) as (c1 & Hcycle & Hrun).
  { unfold cognitive_cycle, think. revert Hbest Hraise.
    destruct (_perceptions c) as [|p ps] eqn:Ep; [done|].
    intros Hbest Hraise. rewrite He.
    rewrite (reason_best _ _ _ _ _ _ Hbest).
    unfold ReasoningEngine.execute. rewrite Hraise. cbn [fst snd].
    eexists. split; [reflexivity|done]. }
  rewrite Hcycle. split; [done|].
  intros Hr. unfold run_step. rewrite Hr, Hcycle. simpl. by rewrite Hrun.
Qed.

(** X20 at an instance: a running core with one perception and an engine
    whose only rule has an action that raises. *)
Lemma raising_action_stops_run_witness :
  let rule :=
    ReasoningEngine.Rule__init__ "r" (fun _ => Some true) (fun _ => None) 1 in
  let e :=
    ReasoningEngine.add_rule "r" (fun _ => Some true) (fun _ => None) 1
      ReasoningEngine.__init__ in
  let c :=
    perceive (PyInt 1) "sensor" 1%Z
      (run_enter 0%Z (__init__ EventBus.__init__ None (Some e))) in
  let ctx :=
    ReasoningEngine.reasoning_context (_perceptions c) (recalled_context c) 2%Z in
  reasoning c = Some e
  ∧ _perceptions c <> []
  ∧ ReasoningEngine.best_rule e ctx = Some (0, rule)
  ∧ _running c = true
  ∧ (cognitive_cycle 2%Z c).2 = Some AttributeError
  ∧ _state (run_step 2%Z c) = "stopped".
Proof.
  intros rule e c ctx.
  assert (reasoning c = Some e) as He by reflexivity.
  assert (_perceptions c <> []) as Hp by done.
  assert (ReasoningEngine.best_rule e ctx = Some (0, rule)) as Hbest by reflexivity.
  assert (ReasoningEngine.action rule ctx = None) as Hraise by reflexivity.
  assert (_running c = true) as Hr by reflexivity.
  destruct (raising_action_stops_run 2%Z c e 0 rule He Hp Hbest Hraise) as [Hc Hs].
  split; [exact He|]. split; [exact Hp|]. split; [exact Hbest|].
  split; [exact Hr|]. split; [exact Hc|exact (proj1 (Hs Hr))].
Defined.

(** X21. A core without a reasoning engine never acts: a cycle raises
    nothing, leaves the memory as it is, and puts on the bus at most the one
    "thought_completed" event, never an "action_requested" one. With an empty
    perception log a cycle changes nothing at all, engine or not. *)
Theorem cycle_without_engine `{Rounding} now c :
  (_perceptions c = [] -> cognitive_cycle now c = (c, None))
  ∧ (reasoning c = None ->
     let c' := (cognitive_cycle now c).1 in
     (cognitive_cycle now c).2 = None
     ∧ memory c' = memory c
     ∧ reasoning c' = None
     ∧ exists thought,
         EventBus._event_queue (event_bus c')
         = EventBus._event_queue (event_bus c)
             ++ (if decide (_perceptions c = []) then [] else [thought])
         ∧ EventBus.type thought = "thought_completed").
Proof.
  split; [apply cycle_empty_log|].
  intros He. unfold cognitive_cycle, think. rewrite He.
  destruct (_perceptions c) as [|p ps] eqn:Ep.
  - cbn [fst snd]. unfold compact. rewrite Ep. cbn [length]. simpl.
    repeat (split; [done|]).
    exists {| EventBus.type := "thought_completed"; EventBus.data := PyNone;
              EventBus.timestamp := now; EventBus.source := "" |}.
    by rewrite app_nil_r.
  - cbn [Py.dict_get]. rewrite !decide_False by done. rewrite decide_True by done.
    cbn [Py.dict_get is_not_observe]. rewrite !decide_True by done.
    cbn [String.eqb Ascii.eqb Bool.eqb negb fst snd].
    unfold compact. cbn [_perceptions].
    destruct (100 <? _); cbn [memory reasoning event_bus];
      (repeat (split; [done|])); eexists; (split; [reflexivity|done]).
Qed.

(** X21 at an instance: a core with no engine and one perception. *)
Lemma cycle_without_engine_witness :
  let c := perceive (PyInt 1) "sensor" 1%Z (__init__ EventBus.__init__ None None) in
  let c' := (cognitive_cycle 2%Z c).1 in
  reasoning c = None
  ∧ (cognitive_cycle 2%Z c).2 = None
  ∧ EventBus.type <$> EventBus._event_queue (event_bus c')
    = ["perception_received"; "thought_completed"].
Proof.
  intros c c'.
  assert (reasoning c = None) as He by reflexivity.
  destruct (cycle_without_engine 2%Z c) as [_ H].
  destruct (H He) as (Hn & _ & _ & thought & Hq & Ht).
  split; [exact He|]. split; [exact Hn|].
  etransitivity; [exact (f_equal (fmap EventBus.type) Hq)|].
  rewrite fmap_app. rewrite decide_False by done. simpl. by rewrite Ht.
Defined.

Lemma think_perceptions `{Rounding} now c : _perceptions (think now c).2 = _perceptions c.
Proof.
  unfold think. destruct (_perceptions c) eqn:E; [done|].
  destruct (reasoning c) as [engine|]; [|done].
  by destruct (ReasoningEngine.reason _ _ _ _).
Qed.

(** X22. The perception log is bounded by the cycles that complete: after a
    cycle that raises nothing, a log of more than 100 perceptions is cut to
    its newest 50 and a shorter one is kept whole, so at most 100 remain; a
    cycle that raises leaves the log uncut. *)
Theorem cycle_compacts_log `{Rounding} now c :
  let c' := (cognitive_cycle now c).1 in
  let log := _perceptions c in
  ((cognitive_cycle now c).2 = None ->
   _perceptions c' = (if 100 <? length log then drop (length log - 50) log else log)
   ∧ length (_perceptions c') <= 100)
  ∧ ((cognitive_cycle now c).2 <> None -> _perceptions c' = log).
Proof.
  intros c' log. subst c' log.
  assert (forall c1, _perceptions c1 = _perceptions c ->
            _perceptions (compact c1)
            = (if 100 <? length (_perceptions c)
               then drop (length (_perceptions c) - 50) (_perceptions c)
               else _perceptions c)
            ∧ length (_perceptions (compact c1)) <= 100) as Hcompact.
  { intros c1 H1. unfold compact. rewrite H1.
    destruct (Nat.ltb_spec 100 (length (_perceptions c))).
    - cbn [_perceptions]. rewrite slice_last_pos by lia. split; [done|].
      rewrite length_drop. lia.
    - rewrite H1. split; [done|lia]. }
  unfold cognitive_cycle. pose proof (think_perceptions now c) as Ht.
  destruct (think now c) as [thoughts c1]. cbn [snd] in Ht.
  repeat case_match; cbn [fst snd]; (split; [intros Hn|intros Hn]); try done;
    apply Hcompact; done.
Qed.

(** X22 at an instance: a log of 101 perceptions and no engine. *)
Lemma cycle_compacts_log_witness :
  let c :=
    exec (replicate 101 (OpPerceive (PyInt 0) "sensor" 0%Z))
      (__init__ EventBus.__init__ None None) in
  (cognitive_cycle 1%Z c).2 = None
  ∧ length (_perceptions c) = 101
  ∧ length (_perceptions (cognitive_cycle 1%Z c).1) = 50.
Proof.
  intros c.
  assert ((cognitive_cycle 1%Z c).2 = None) as Hn by (vm_compute; reflexivity).
  assert (length (_perceptions c) = 101) as Hl by (vm_compute; reflexivity).
  destruct (cycle_compacts_log 1%Z c) as [H _]. destruct (H Hn) as [Hp _].
  split; [exact Hn|]. split; [exact Hl|].
  rewrite Hp, Hl. replace (100 <? 101) with true by reflexivity.
  rewrite length_drop, Hl. reflexivity.
Defined.

End CognitiveCoreMore.
